(** * video_merger: stitching a local clip before a remote clip

    A shallow embedding of [src/app/video_merger.py].  The module shells
    out to [ffmpeg], [ffprobe] and [yt-dlp]; what those tools answer is not
    part of the program, so the embedding takes it from an environment
    ([Env]) and records every effect the program performs in a trace.

    Conventions.
    - A Python [str] is a [string]; each character stands for the code
      point of the same number, so the model covers code points below 256.
    - A [pathlib.Path] is the [string] that [str(path)] gives.
    - A Python exception is a value of [exn]; a function that may raise
      returns a [result].
    - Every call into the standard library may raise instead of answering:
      the environment says which ([fault], and the outcomes of [run] and
      [copy2]).  One call is trusted: the removal of the temporary
      directory when the [with] block is left.
    - [int(...)] is the interpreter's with its default limit of 4300
      digits. *)

From Stdlib Require Import String Ascii List ZArith Bool Lia DecimalString.
From Stdlib Require Import DecimalPos.
Import ListNotations.
Open Scope string_scope.

Set Implicit Arguments.

(* ================================================================= *)
(** ** Python string primitives *)

Module PyStr.

Definition code (c : ascii) : nat := nat_of_ascii c.

(** [str.isspace] on one character, code points below 256. *)
Definition isspace (c : ascii) : bool :=
  let n := code c in
  (((9 <=? n) && (n <=? 13)) || ((28 <=? n) && (n <=? 32))
   || (n =? 133) || (n =? 160))%nat.

(** Line boundaries of [str.splitlines] other than the pair CR LF. *)
Definition islinebreak (c : ascii) : bool :=
  let n := code c in
  (((10 <=? n) && (n <=? 13)) || ((28 <=? n) && (n <=? 30))
   || (n =? 133))%nat.

Fixpoint lstrip (s : string) : string :=
  match s with
  | String c s' => if isspace c then lstrip s' else s
  | EmptyString => EmptyString
  end.

(** [rstrip] keeps a character when it is not a space or when something
    survives to its right. *)
Fixpoint rstrip (s : string) : string :=
  match s with
  | String c s' =>
      match rstrip s' with
      | EmptyString => if isspace c then EmptyString else String c EmptyString
      | r => String c r
      end
  | EmptyString => EmptyString
  end.

(** [s.strip()] *)
Definition strip (s : string) : string := rstrip (lstrip s).

(** [bool(s)] for a string: non-empty. *)
Definition truthy (s : string) : bool :=
  match s with EmptyString => false | String _ _ => true end.

(** [s.splitlines()]: [cur] is the line being read. *)
Fixpoint splitlines_from (cur s : string) : list string :=
  match s with
  | EmptyString => if truthy cur then [cur] else []
  | String c s' =>
      if (code c =? 13)%nat then
        match s' with
        | String c' s'' =>
            if (code c' =? 10)%nat then cur :: splitlines_from "" s''
            else cur :: splitlines_from "" s'
        | EmptyString => cur :: splitlines_from "" s'
        end
      else if islinebreak c then cur :: splitlines_from "" s'
      else splitlines_from (cur ++ String c "") s'
  end.

Definition splitlines (s : string) : list string := splitlines_from "" s.

(** [str.lower] on one character: A-Z and the Latin-1 capitals. *)
Definition lower_char (c : ascii) : ascii :=
  let n := code c in
  if (((65 <=? n) && (n <=? 90))
      || ((192 <=? n) && (n <=? 222) && negb (n =? 215)))%nat
  then ascii_of_nat (n + 32) else c.

Fixpoint lower (s : string) : string :=
  match s with
  | String c s' => String (lower_char c) (lower s')
  | EmptyString => EmptyString
  end.

(** [needle in hay] for strings. *)
Fixpoint contains (needle hay : string) : bool :=
  prefix needle hay
  || match hay with
     | String _ hay' => contains needle hay'
     | EmptyString => false
     end.

Definition isdigit (c : ascii) : bool :=
  let n := code c in ((48 <=? n) && (n <=? 57))%nat.

(** The digits of an [int(...)] argument: decimal digits, single
    underscores allowed between two digits. *)
Fixpoint digits (acc : Z) (after_digit : bool) (s : string) : option Z :=
  match s with
  | EmptyString => if after_digit then Some acc else None
  | String c s' =>
      if isdigit c then
        digits (10 * acc + Z.of_nat (code c - 48)) true s'
      else if (code c =? 95)%nat && after_digit then
        match s' with
        | EmptyString => None
        | _ => digits acc false s'
        end
      else None
  end.

(** White space for [int(...)]: the interpreter's own table for the code
    points below 127, [str.isspace] above; the separators 28 to 31, which
    [strip()] removes, are not among them. *)
Definition int_isspace (c : ascii) : bool :=
  let n := code c in
  (((9 <=? n) && (n <=? 13)) || (n =? 32) || (n =? 133) || (n =? 160))%nat.

Fixpoint int_lstrip (s : string) : string :=
  match s with
  | String c s' => if int_isspace c then int_lstrip s' else s
  | EmptyString => EmptyString
  end.

Fixpoint int_rstrip (s : string) : string :=
  match s with
  | String c s' =>
      match int_rstrip s' with
      | EmptyString =>
          if int_isspace c then EmptyString else String c EmptyString
      | r => String c r
      end
  | EmptyString => EmptyString
  end.

(** What [int(...)] reads once white space and sign are taken away. *)
Definition unsigned (s : string) : string :=
  match int_rstrip (int_lstrip s) with
  | String "+" r => r
  | String "-" r => r
  | r => r
  end.

(** The digits that [int(...)] counts against its limit: those of the
    longest beginning made of digits and underscores. *)
Fixpoint digit_count (s : string) : nat :=
  match s with
  | String c s' =>
      if isdigit c then S (digit_count s')
      else if (code c =? 95)%nat then digit_count s'
      else 0
  | EmptyString => 0
  end.

(** [sys.int_info.default_max_str_digits]; the program never changes the
    limit. *)
Definition max_str_digits : nat := 4300.

(** [int(s)]: [None] stands for [ValueError], raised for a malformed
    literal and for one of more than [max_str_digits] digits. *)
Definition int (s : string) : option Z :=
  if (max_str_digits <? digit_count (unsigned s))%nat then None
  else
    match int_rstrip (int_lstrip s) with
    | String "+" r => digits 0 false r
    | String "-" r => option_map Z.opp (digits 0 false r)
    | r => digits 0 false r
    end.

(** The decimal form of an integer: [str(n)] for the integers of at most
    [max_str_digits] digits, the only ones that [int] gives. *)
Definition of_int (n : Z) : string := NilZero.string_of_int (Z.to_int n).

(** The character is printed as it is by [repr]. *)
Definition isprintable (c : ascii) : bool :=
  let n := code c in
  ((32 <=? n) && negb ((127 <=? n) && (n <=? 160)) && negb (n =? 173))%nat.

Definition hex_digit (n : nat) : ascii :=
  if (n <? 10)%nat then ascii_of_nat (48 + n) else ascii_of_nat (87 + n).

Definition backslash : ascii := ascii_of_nat 92.

(** One character inside [repr(s)], for the quote [quote] around it. *)
Definition repr_char (quote c : ascii) : string :=
  let n := code c in
  if Ascii.eqb c quote || (n =? 92)%nat then String backslash (String c "")
  else if (n =? 9)%nat then String backslash "t"
  else if (n =? 10)%nat then String backslash "n"
  else if (n =? 13)%nat then String backslash "r"
  else if isprintable c then String c ""
  else String backslash
         (String "x" (String (hex_digit (n / 16))
                        (String (hex_digit (n mod 16)) ""))).

Fixpoint repr_body (quote : ascii) (s : string) : string :=
  match s with
  | String c s' => repr_char quote c ++ repr_body quote s'
  | EmptyString => EmptyString
  end.

Fixpoint mentions (c0 : ascii) (s : string) : bool :=
  match s with
  | String c s' => Ascii.eqb c c0 || mentions c0 s'
  | EmptyString => false
  end.

(** [repr(s)]: single quotes, unless [s] has a single quote and no
    double quote. *)
Definition repr (s : string) : string :=
  let double := ascii_of_nat 34 in
  let quote :=
    if mentions "'"%char s && negb (mentions double s) then double
    else "'"%char in
  String quote (repr_body quote s ++ String quote "").

Fixpoint take (n : nat) (s : string) : string :=
  match n, s with
  | S n', String c s' => String c (take n' s')
  | _, _ => EmptyString
  end.

(** The beginning of [s] made of digits and underscores is one the
    interpreter goes on to count: no underscore in front, at the end, or
    next to another. *)
Fixpoint grouped (after_digit : bool) (s : string) : bool :=
  match s with
  | String c s' =>
      if isdigit c then grouped true s'
      else if (code c =? 95)%nat then
        after_digit
        && match s' with
           | String c' _ => isdigit c'
           | EmptyString => false
           end
        && grouped false s'
      else true
  | EmptyString => true
  end.

(** [str(e)] for the [ValueError] of [int(s)]. *)
Definition int_error (s : string) : string :=
  let body := unsigned s in
  if grouped false body && (max_str_digits <? digit_count body)%nat then
    "Exceeds the limit (4300 digits) for integer string conversion: value has "
      ++ of_int (Z.of_nat (digit_count body))
      ++ " digits; use sys.set_int_max_str_digits() to increase the limit"
  else
    "invalid literal for int() with base 10: " ++ take 200 (repr s).

End PyStr.

(* ================================================================= *)
(** ** Exceptions, effects and the environment *)

Inductive exn : Type :=
| FileNotFoundError (msg : string)
| PermissionError (msg : string)
| OSError (msg : string)
| RuntimeError (msg : string)
| ValueError (msg : string)
| UnicodeDecodeError (msg : string)
| CalledProcessError (args : list string)
| DownloadError (msg : string).


(** What a call into the standard library raises when it does not answer.
    [CalledProcessError] and [DownloadError] are not among these: the
    first is raised by [subprocess.run(check=True)] for a non-zero exit
    status and by nothing else, the second by the downloader only. *)
Inductive lib_error : Type :=
| EFileNotFound (msg : string)
| EPermission (msg : string)
| EOS (msg : string)
| ERuntime (msg : string)
| EValue (msg : string)
| EUnicodeDecode (msg : string).

Definition to_exn (e : lib_error) : exn :=
  match e with
  | EFileNotFound msg => FileNotFoundError msg
  | EPermission msg => PermissionError msg
  | EOS msg => OSError msg
  | ERuntime msg => RuntimeError msg
  | EValue msg => ValueError msg
  | EUnicodeDecode msg => UnicodeDecodeError msg
  end.

Inductive result (A : Type) : Type :=
| Ok (a : A)
| Raise (e : exn).
Arguments Raise {A} e.

(** What [subprocess.run(args, check=True, ...)] meets. *)
Inductive proc_outcome : Type :=
| NotFound                      (* the executable is not on the PATH *)
| Failed                        (* non-zero exit status *)
| Completed (stdout : string)   (* exit status 0 *)
| Broke (e : lib_error).
    (* anything else the call raises: [PermissionError] for a file that
       is not executable, [ValueError] for a NUL in an argument,
       [UnicodeDecodeError] for captured output that is not text, ... *)

(** What the [yt_dlp] session meets: the download raises
    [DownloadError], the way the downloader reports a failed extraction or
    transfer; or [prepare_filename] names the file it should have written;
    or something else is raised on the way. *)
Inductive ytdlp_outcome : Type :=
| YtRaised (msg : string)
| YtPrepared (downloaded_name : string)
| YtBroke (e : lib_error).

(** The options dictionary handed to [YoutubeDL]. *)
Record ydl_opts : Type := {
  outtmpl : string;
  format : string;
  noplaylist : bool;
  quiet : bool;
  no_warnings : bool
}.

(** The effects of a call.  [EvMkdir], [EvMkdtemp], [EvRmtree] and
    [EvReplace] record calls that succeeded; a [mkdir] that failed is
    recorded too, because it may have made some of the ancestors; the
    other calls record their outcome. *)
Inductive event : Type :=
| EvRun (args : list string) (outcome : proc_outcome)
| EvMkdir (dir : string)
| EvMkdirFailed (dir : string) (e : lib_error)
| EvMkdtemp (dir : string)
| EvRmtree (dir : string)
| EvCopy2 (source destination : string) (failure : option lib_error)
| EvYtdlp (url : string) (opts : ydl_opts) (outcome : ytdlp_outcome)
| EvReplace (source destination : string).

Definition trace := list event.

(** The calls into [pathlib] and [tempfile] that the program makes. *)
Inductive call : Type :=
| Expanduser (path : string)            (* Path(path).expanduser() *)
| Resolve (path : string)               (* Path(path).resolve() *)
| Exists (path : string)                (* Path(path).exists() *)
| Mkdir (path : string)   (* Path(path).mkdir(parents=True, exist_ok=True) *)
| Mkdtemp                               (* tempfile.TemporaryDirectory() *)
| Replace (source destination : string).  (* Path(source).replace(...) *)

(** The world outside the program.  Every answer may depend on what the
    program has done so far.  [fault] tells whether a call raises, and
    what: an unknown [~user] makes [expanduser] raise [RuntimeError], a
    removed working directory makes [resolve] raise [FileNotFoundError],
    a name that is too long makes [exists] raise [OSError], and so on.
    [expanduser], [resolve], [path_exists] and [mkdtemp] give the answer
    of a call that does not raise. *)
Record Env : Type := {
  expanduser : string -> string;     (* str(Path(s).expanduser()) *)
  resolve : string -> string;        (* str(Path(s).resolve()) *)
  path_exists : trace -> string -> bool;
  run : trace -> list string -> proc_outcome;
  mkdtemp : trace -> string;
  copy2 : trace -> string -> string -> option lib_error;
  ytdlp_importable : bool;
  ytdlp_extract : trace -> string -> ydl_opts -> ytdlp_outcome;
  fault : trace -> call -> option lib_error
}.

(** Computations: a trace in, a result and the extended trace out. *)
Definition M (A : Type) : Type := trace -> result A * trace.

Definition ret {A} (a : A) : M A := fun tr => (Ok a, tr).

Definition raise {A} (e : exn) : M A := fun tr => (Raise e, tr).

Definition bind {A B} (m : M A) (k : A -> M B) : M B :=
  fun tr =>
    match m tr with
    | (Ok a, tr') => k a tr'
    | (Raise e, tr') => (Raise e, tr')
    end.

(** A step that cannot touch the outside world. *)
Definition lift {A} (r : result A) : M A := fun tr => (r, tr).

Declare Scope py_scope.
Delimit Scope py_scope with py.
Notation "x <- m ;; k" := (bind m (fun x => k))
  (at level 61, m at next level, right associativity) : py_scope.
Notation "m ;; k" := (bind m (fun _ => k))
  (at level 61, right associativity) : py_scope.
Open Scope py_scope.

(** [Path.parent] of a path in the form [str] gives it. *)
Fixpoint dirname_from (s : string) : option string :=
  match s with
  | EmptyString => None
  | String c s' =>
      match dirname_from s' with
      | Some d => Some (String c d)
      | None => if (PyStr.code c =? 47)%nat then Some EmptyString else None
      end
  end.

Definition path_parent (p : string) : string :=
  match dirname_from p with
  | Some EmptyString => "/"
  | Some d => d
  | None => "."
  end.

(** [Path(d) / name] *)
Definition path_join (d name : string) : string := d ++ "/" ++ name.

Fixpoint ancestors_within (fuel : nat) (p : string) : list string :=
  match fuel with
  | O => []
  | S fuel' =>
      let q := path_parent p in
      if String.eqb q p then [] else q :: ancestors_within fuel' q
  end.

(** [[str(q) for q in Path(p).parents]] *)
Definition path_ancestors (p : string) : list string :=
  ancestors_within (String.length p) p.

(* ================================================================= *)
(** ** The program *)

(** Source lines 11 to 20. *)
Definition STREAMING_DOMAINS : list string :=
  [ "youtube.com";
    "youtu.be";
    "x.com";
    "twitter.com";
    "tiktok.com";
    "vimeo.com";
    "bitchute.com";
    "rumble.com" ].

(** [try: m  except ...: handler] *)
Definition try_except {A} (m : M A) (handler : exn -> M A) : M A :=
  fun tr =>
    match m tr with
    | (Raise e, tr') => handler e tr'
    | r => r
    end.

(** Argument vectors, as the functions below build them. *)
Definition version_args : list string := ["ffmpeg"; "-version"].

Definition audio_probe_args (video_path : string) : list string :=
  [ "ffprobe"; "-v"; "error"; "-select_streams"; "a";
    "-show_entries"; "stream=index";
    "-of"; "default=noprint_wrappers=1:nokey=1";
    video_path ].

Definition dims_probe_args (video_path : string) : list string :=
  [ "ffprobe"; "-v"; "error"; "-select_streams"; "v:0";
    "-show_entries"; "stream=width,height";
    "-of"; "default=noprint_wrappers=1:nokey=1";
    video_path ].

Definition scale_filter (target_size : Z * Z) : string :=
  let (width, height) := target_size in
  "scale=" ++ PyStr.of_int width ++ ":" ++ PyStr.of_int height
    ++ ":force_original_aspect_ratio=decrease,"
    ++ "pad=" ++ PyStr.of_int width ++ ":" ++ PyStr.of_int height
    ++ ":(ow-iw)/2:(oh-ih)/2".

Definition scale_args (source : string) (target_size : Z * Z)
    (destination : string) : list string :=
  [ "ffmpeg"; "-y"; "-i"; source;
    "-vf"; scale_filter target_size;
    "-c:v"; "libx264"; "-preset"; "fast"; "-pix_fmt"; "yuv420p";
    "-c:a"; "copy";
    destination ].

Definition concat_filter (include_audio : bool) : string :=
  if include_audio
  then "[0:v][0:a][1:v][1:a]concat=n=2:v=1:a=1[v][a]"
  else "[0:v][1:v]concat=n=2:v=1:a=0[v]".

Definition concat_args (local_path remote_path output_path : string)
    (include_audio : bool) : list string :=
  let args :=
    [ "ffmpeg"; "-y"; "-i"; local_path; "-i"; remote_path;
      "-filter_complex"; concat_filter include_audio;
      "-map"; "[v]";
      "-c:v"; "libx264"; "-preset"; "fast"; "-pix_fmt"; "yuv420p" ] in
  let args :=
    if include_audio
    then (args ++ ["-map"; "[a]"; "-c:a"; "aac"; "-b:a"; "192k";
                   "-ar"; "44100"])%list
    else args in
  (args ++ [output_path])%list.

Definition fetch_args (remote_url destination : string) : list string :=
  [ "ffmpeg"; "-y"; "-i"; remote_url; "-c"; "copy"; destination ].

Definition size_eqb (a b : Z * Z) : bool :=
  (fst a =? fst b)%Z && (snd a =? snd b)%Z.

(** [[line.strip() for line in stdout.splitlines() if line.strip()]] *)
Definition stripped_lines (stdout : string) : list string :=
  map PyStr.strip
      (filter (fun line => PyStr.truthy (PyStr.strip line))
              (PyStr.splitlines stdout)).

(** [int(s)], with the [ValueError] the interpreter raises. *)
Definition int_ (s : string) : result Z :=
  match PyStr.int s with
  | Some n => Ok n
  | None => Raise (ValueError (PyStr.int_error s))
  end.

(** The part of [_probe_video_dimensions] that follows the child process
    (source lines 91 to 95): it reads the captured output and touches
    nothing else. *)
Definition read_dimensions (video_path stdout : string) : result (Z * Z) :=
  let lines := stripped_lines stdout in
  if (length lines <? 2)%nat then
    Raise (RuntimeError
             ("Unable to determine dimensions for " ++ video_path))
  else
    match int_ (nth 0 lines "") with
    | Raise e => Raise e
    | Ok width =>
        match int_ (nth 1 lines "") with
        | Raise e => Raise e
        | Ok height => Ok (width, height)
        end
    end.

Section Merger.

Variable env : Env.

(** [subprocess.run(args, check=True, ...)], returning the child's
    standard output. *)
Definition subprocess_run (args : list string) : M string :=
  fun tr =>
    let outcome := run env tr args in
    let tr' := (tr ++ [EvRun args outcome])%list in
    match outcome with
    | NotFound =>
        (Raise (FileNotFoundError
                  ("[Errno 2] No such file or directory: "
                     ++ PyStr.repr (hd "" args))), tr')
    | Failed => (Raise (CalledProcessError args), tr')
    | Completed stdout => (Ok stdout, tr')
    | Broke e => (Raise (to_exn e), tr')
    end.

(** A library call without effect: it raises or gives [answer]. *)
Definition library {A} (c : call) (answer : trace -> A) : M A :=
  fun tr =>
    match fault env tr c with
    | Some e => (Raise (to_exn e), tr)
    | None => (Ok (answer tr), tr)
    end.

(** [Path.expanduser()] *)
Definition expanduser_ (p : string) : M string :=
  library (Expanduser p) (fun _ => expanduser env p).

(** [Path.resolve()] *)
Definition resolve_ (p : string) : M string :=
  library (Resolve p) (fun _ => resolve env p).

(** [Path.exists()] *)
Definition exists_ (p : string) : M bool :=
  library (Exists p) (fun tr => path_exists env tr p).

(** [Path.mkdir(parents=True, exist_ok=True)] *)
Definition mkdir_ (p : string) : M unit :=
  fun tr =>
    match fault env tr (Mkdir p) with
    | Some e => (Raise (to_exn e), (tr ++ [EvMkdirFailed p e])%list)
    | None => (Ok tt, (tr ++ [EvMkdir p])%list)
    end.

(** [Path.replace(destination)]: the rename happens or nothing does. *)
Definition replace_ (source destination : string) : M unit :=
  fun tr =>
    match fault env tr (Replace source destination) with
    | Some e => (Raise (to_exn e), tr)
    | None => (Ok tt, (tr ++ [EvReplace source destination])%list)
    end.

(** [shutil.copy2(source, destination)] *)
Definition copy2_ (source destination : string) : M unit :=
  fun tr =>
    let failure := copy2 env tr source destination in
    let tr' := (tr ++ [EvCopy2 source destination failure])%list in
    match failure with
    | Some e => (Raise (to_exn e), tr')
    | None => (Ok tt, tr')
    end.

(** [with YoutubeDL(opts) as ydl: extract_info(...); prepare_filename(...)] *)
Definition ytdlp_session (remote_url : string) (opts : ydl_opts) : M string :=
  fun tr =>
    let outcome := ytdlp_extract env tr remote_url opts in
    let tr' := (tr ++ [EvYtdlp remote_url opts outcome])%list in
    match outcome with
    | YtRaised msg => (Raise (DownloadError msg), tr')
    | YtPrepared downloaded_name => (Ok downloaded_name, tr')
    | YtBroke e => (Raise (to_exn e), tr')
    end.

(** [with tempfile.TemporaryDirectory() as tmpdir: body]: when the
    directory cannot be made the block is not entered and nothing is left;
    otherwise the directory is removed when the block is left, normally or
    by an exception. *)
Definition with_TemporaryDirectory {A} (body : string -> M A) : M A :=
  fun tr =>
    match fault env tr Mkdtemp with
    | Some e => (Raise (to_exn e), tr)
    | None =>
        let tmpdir := mkdtemp env tr in
        let (r, tr') := body tmpdir (tr ++ [EvMkdtemp tmpdir])%list in
        (r, (tr' ++ [EvRmtree tmpdir])%list)
    end.

(** Source lines 23 to 35. *)
Definition _ensure_ffmpeg_available : M unit :=
  try_except
    (subprocess_run version_args ;; ret tt)
    (fun exc =>
       match exc with
       | FileNotFoundError _ =>
           raise (RuntimeError
                    "ffmpeg is required to merge videos; please install it.")
       | CalledProcessError _ =>
           raise (RuntimeError "Unable to run ffmpeg binary.")
       | _ => raise exc
       end).

(** Source lines 38 to 63. *)
Definition _has_audio_stream (video_path : string) : M bool :=
  stdout <-
    try_except
      (subprocess_run (audio_probe_args video_path))
      (fun exc =>
         match exc with
         | FileNotFoundError _ =>
             raise (RuntimeError
                      "ffprobe is required to inspect audio tracks.")
         | CalledProcessError _ =>
             raise (RuntimeError
                      ("ffprobe could not analyze " ++ video_path ++ "."))
         | _ => raise exc
         end) ;;
  ret (PyStr.truthy (PyStr.strip stdout)).

(** Source lines 66 to 95; the reading of the output is [read_dimensions]. *)
Definition _probe_video_dimensions (video_path : string) : M (Z * Z) :=
  stdout <-
    try_except
      (subprocess_run (dims_probe_args video_path))
      (fun exc =>
         match exc with
         | FileNotFoundError _ =>
             raise (RuntimeError
                      "ffprobe is required to inspect video streams.")
         | CalledProcessError _ =>
             raise (RuntimeError
                      ("ffprobe could not analyze " ++ video_path ++ "."))
         | _ => raise exc
         end) ;;
  lift (read_dimensions video_path stdout).

(** Source lines 98 to 127; the command is [scale_args]. *)
Definition _scale_video_to_target (source : string) (target_size : Z * Z)
    (destination : string) : M unit :=
  subprocess_run (scale_args source target_size destination) ;; ret tt.

(** Source lines 130 to 174; the command is [concat_args]. *)
Definition _concat_with_reencoding
    (local_path remote_path output_path : string) (include_audio : bool)
    : M unit :=
  subprocess_run
    (concat_args local_path remote_path output_path include_audio) ;;
  ret tt.

(** Source lines 177 to 180. *)
Definition _is_streaming_url (remote_url : string) : bool :=
  let lowered := PyStr.lower remote_url in
  existsb (fun domain => PyStr.contains domain lowered) STREAMING_DOMAINS.

(** Source lines 183 to 207. *)
Definition _download_with_ytdlp (remote_url destination : string) : M unit :=
  if negb (ytdlp_importable env) then
    raise (RuntimeError
             "yt-dlp is required for streaming URLs like X/YouTube")
  else
    mkdir_ (path_parent destination) ;;
    let template := path_join (path_parent destination) "remote.%(ext)s" in
    let opts :=
      {| outtmpl := template;
         format := "bestvideo+bestaudio/best";
         noplaylist := true;
         quiet := true;
         no_warnings := true |} in
    downloaded_path <- ytdlp_session remote_url opts ;;
    present <- exists_ downloaded_path ;;
    if negb present then
      raise (RuntimeError ("yt-dlp failed to download " ++ remote_url))
    else
      replace_ downloaded_path destination.

(** Source lines 210 to 223; the command is [fetch_args]. *)
Definition _download_remote_clip (remote_url destination : string) : M unit :=
  subprocess_run (fetch_args remote_url destination) ;; ret tt.

(** Source lines 226 to 237. *)
Definition _prepare_remote_clip (remote_url destination : string) : M unit :=
  candidate <- expanduser_ remote_url ;;
  present <- exists_ candidate ;;
  if present then
    copy2_ candidate destination
  else if _is_streaming_url remote_url then
    _download_with_ytdlp remote_url destination
  else
    _download_remote_clip remote_url destination.

(** The body of the [with] block of [merge_local_with_remote] (source
    lines 255 to 272), for the temporary directory [tmpdir]. *)
Definition merge_in_tmpdir
    (local_path remote_url output_path tmpdir : string) : M unit :=
  let working_remote := path_join tmpdir "remote.mp4" in
  _prepare_remote_clip remote_url working_remote ;;
  local_size <- _probe_video_dimensions local_path ;;
  remote_size <- _probe_video_dimensions working_remote ;;
  normalized_remote <-
    (if negb (size_eqb local_size remote_size) then
       let normalized_remote := path_join tmpdir "remote_scaled.mp4" in
       _scale_video_to_target working_remote local_size normalized_remote ;;
       ret normalized_remote
     else
       ret working_remote) ;;
  local_has_audio <- _has_audio_stream local_path ;;
  remote_has_audio <- _has_audio_stream normalized_remote ;;
  _concat_with_reencoding
    local_path normalized_remote output_path
    (local_has_audio && remote_has_audio).

(** Source lines 240 to 274. *)
Definition merge_local_with_remote
    (local_path remote_url output_path : string) : M string :=
  local_path <- (expanded <- expanduser_ local_path ;; resolve_ expanded) ;;
  present <- exists_ local_path ;;
  if negb present then
    raise (FileNotFoundError
             ("Local video does not exist: " ++ local_path))
  else
    _ensure_ffmpeg_available ;;
    output_path <-
      (expanded <- expanduser_ output_path ;; resolve_ expanded) ;;
    mkdir_ (path_parent output_path) ;;
    with_TemporaryDirectory
      (merge_in_tmpdir local_path remote_url output_path) ;;
    ret output_path.

End Merger.


(* ================================================================= *)
(** ** Reading a trace *)

(** [p] is [dir] itself or lies below it. *)
Definition within (dir p : string) : bool :=
  String.eqb p dir || prefix (dir ++ "/") p.

(** Temporary directories created and not yet removed. *)
Fixpoint live_tmpdirs (live : list string) (tr : trace) : list string :=
  match tr with
  | [] => live
  | EvMkdtemp d :: tr' => live_tmpdirs (d :: live) tr'
  | EvRmtree d :: tr' =>
      live_tmpdirs (filter (fun d' => negb (String.eqb d' d)) live) tr'
  | _ :: tr' => live_tmpdirs live tr'
  end.

(** Paths an effect may leave on the filesystem.  [mkdir] makes the
    directory and every ancestor that is missing, some of them even when
    it fails.  Every [ffmpeg] call that writes is started with [-y] and
    names its output last; it may have written it even when it failed. *)
Definition creates (e : event) : list string :=
  match e with
  | EvMkdir d => d :: path_ancestors d
  | EvMkdirFailed d _ => path_ancestors d
  | EvMkdtemp d => [d]
  | EvCopy2 _ destination _ => [destination]
  | EvRun ("ffmpeg" :: "-y" :: rest) NotFound => []
  | EvRun ("ffmpeg" :: "-y" :: rest) _ => [last rest ""]
  | EvRun _ _ => []
  | EvYtdlp _ _ (YtPrepared downloaded_name) => [downloaded_name]
  | EvYtdlp _ _ (YtRaised _) | EvYtdlp _ _ (YtBroke _) => []
  | EvReplace _ destination => [destination]
  | EvRmtree _ => []
  end.

(** Paths created by the effects of a trace and still there at its end. *)
Fixpoint leftovers (fs : list string) (tr : trace) : list string :=
  match tr with
  | [] => fs
  | EvRmtree d :: tr' =>
      leftovers (filter (fun p => negb (within d p)) fs) tr'
  | EvReplace source destination :: tr' =>
      leftovers
        (destination :: filter (fun p => negb (String.eqb p source)) fs) tr'
  | e :: tr' => leftovers (creates e ++ fs)%list tr'
  end.

Definition is_run (e : event) : bool :=
  match e with EvRun _ _ => true | _ => false end.

Definition is_ytdlp (e : event) : bool :=
  match e with EvYtdlp _ _ _ => true | _ => false end.

Definition is_copy (e : event) : bool :=
  match e with EvCopy2 _ _ _ => true | _ => false end.

(** Neither the creation nor the removal of a temporary directory. *)
Definition no_tmp (e : event) : Prop :=
  match e with
  | EvMkdtemp _ | EvRmtree _ => False
  | _ => True
  end.

(** Commands are told apart by their executable and their fifth word. *)
Definition command_is (exe word4 : string) (args : list string) : bool :=
  String.eqb (hd "" args) exe && String.eqb (nth 4 args "") word4.

Definition is_dims_probe : list string -> bool := command_is "ffprobe" "v:0".
Definition is_audio_probe : list string -> bool := command_is "ffprobe" "a".
Definition is_scale : list string -> bool := command_is "ffmpeg" "-vf".
Definition is_concat : list string -> bool := command_is "ffmpeg" "-i".
Definition is_fetch : list string -> bool := command_is "ffmpeg" "-c".

(** What the dimension probes that completed reported, in order. *)
Definition probed_sizes (tr : trace) : list (result (Z * Z)) :=
  flat_map
    (fun e =>
       match e with
       | EvRun args (Completed stdout) =>
           if is_dims_probe args
           then [read_dimensions (last args "") stdout] else []
       | _ => []
       end) tr.

(** The clips whose audio was probed, each with the verdict, in order. *)
Definition probed_audio (tr : trace) : list (string * bool) :=
  flat_map
    (fun e =>
       match e with
       | EvRun args (Completed stdout) =>
           if is_audio_probe args
           then [(last args "", PyStr.truthy (PyStr.strip stdout))] else []
       | _ => []
       end) tr.

(** The commands of one kind that were started. *)
Definition commands (kind : list string -> bool) (tr : trace)
    : list (list string) :=
  flat_map
    (fun e =>
       match e with
       | EvRun args _ => if kind args then [args] else []
       | _ => []
       end) tr.

(** [m] only extends the trace, and only by effects that satisfy [P]. *)
Definition emits (P : event -> Prop) {A} (m : M A) : Prop :=
  forall tr r tr',
    m tr = (r, tr') -> exists new, tr' = (tr ++ new)%list /\ Forall P new.

(* ================================================================= *)
(** ** Reading a filter description and a URL *)

(** [s.split(sep)] for a one-character separator: [ffmpeg] separates the
    filters of a chain by commas and the arguments of a filter by colons. *)
Fixpoint split_from (sep : ascii) (cur s : string) : list string :=
  match s with
  | EmptyString => [cur]
  | String c s' =>
      if Ascii.eqb c sep then cur :: split_from sep "" s'
      else split_from sep (cur ++ String c "") s'
  end.

Definition split_on (sep : ascii) (s : string) : list string :=
  split_from sep "" s.

(** [sep not in s] *)
Fixpoint free_of (sep : ascii) (s : string) : bool :=
  match s with
  | EmptyString => true
  | String c s' => negb (Ascii.eqb c sep) && free_of sep s'
  end.

(** Some character of [s] is not white space. *)
Fixpoint nonblank (s : string) : bool :=
  match s with
  | EmptyString => false
  | String c s' => negb (PyStr.isspace c) || nonblank s'
  end.

Fixpoint skip (n : nat) (s : string) : string :=
  match n, s with
  | S n', String _ s' => skip n' s'
  | _, _ => s
  end.

(** What follows the first ["://"]. *)
Fixpoint after_scheme (s : string) : option string :=
  match s with
  | EmptyString => None
  | String _ s' => if prefix "://" s then Some (skip 3 s) else after_scheme s'
  end.

Fixpoint take_until (stop : ascii -> bool) (s : string) : string :=
  match s with
  | EmptyString => EmptyString
  | String c s' => if stop c then EmptyString else String c (take_until stop s')
  end.

(** What follows the last occurrence of [c0]. *)
Fixpoint after_last (c0 : ascii) (s : string) : option string :=
  match s with
  | EmptyString => None
  | String c s' =>
      match after_last c0 s' with
      | Some r => Some r
      | None => if Ascii.eqb c c0 then Some s' else None
      end
  end.

(** The host of a URL as the spec speaks of it: the authority after the
    scheme, up to the path, query or fragment, without user information
    and port. *)
Definition url_host (url : string) : string :=
  let rest := match after_scheme url with Some r => r | None => url end in
  let authority :=
    take_until
      (fun c => Ascii.eqb c "/" || Ascii.eqb c "?" || Ascii.eqb c "#")%char
      rest in
  let hostport :=
    match after_last "@" authority with Some h => h | None => authority end in
  take_until (fun c => Ascii.eqb c ":"%char) hostport.

Fixpoint ends_with (suffix s : string) : bool :=
  String.eqb s suffix
  || match s with
     | String _ s' => ends_with suffix s'
     | EmptyString => false
     end.

(** A host is on a domain when it is the domain or one of its subdomains. *)
Definition host_on_domain (host domain : string) : bool :=
  String.eqb host domain || ends_with ("." ++ domain) host.

(** The spec's reading of the classification: the host of the reference
    matches the domain list.  [_is_streaming_url] is the code's reading. *)
Definition spec_host_is_streaming (remote_url : string) : bool :=
  existsb (host_on_domain (PyStr.lower (url_host remote_url)))
          STREAMING_DOMAINS.

(* ================================================================= *)
(** ** Concrete worlds *)

Module Scenario.

Definition nl : string := String (ascii_of_nat 10) "".

Definition home_expand (s : string) : string :=
  if prefix "~/" s then "/home/ana" ++ skip 1 s else s.

Definition absolute (s : string) : string :=
  if prefix "/" s then s else "/work/" ++ s.

Definition tmp : string := "/tmp/tmpk3v9x".

(** A world whose files and tools do not change during the call. *)
Definition world (present : string -> bool)
    (answers : list string -> proc_outcome) : Env :=
  {| expanduser := home_expand;
     resolve := absolute;
     path_exists := fun _ p => present p;
     run := fun _ args => answers args;
     mkdtemp := fun _ => tmp;
     copy2 := fun _ _ _ => None;
     ytdlp_importable := true;
     ytdlp_extract := fun _ _ _ => YtPrepared (tmp ++ "/remote.webm");
     fault := fun _ _ => None |}.

Definition local_clip : string := "/work/intro.mp4".

(** Tools that work: the local clip has the dimensions [ldims] and the
    audio listing [laudio], every other clip [rdims] and [raudio]. *)
Definition tools (ldims rdims laudio raudio : string)
    (args : list string) : proc_outcome :=
  let on_local := String.eqb (last args "") local_clip in
  if is_dims_probe args then
    Completed (if on_local then ldims else rdims)
  else if is_audio_probe args then
    Completed (if on_local then laudio else raudio)
  else Completed "".

Definition hd720 : string := "1280" ++ nl ++ "720" ++ nl.
Definition hd1080 : string := "1920" ++ nl ++ "1080" ++ nl.
Definition one_track : string := "1" ++ nl.

(** The local clip and the downloaded file exist, nothing else. *)
Definition fresh_disk (p : string) : bool :=
  String.eqb p local_clip || String.eqb p (tmp ++ "/remote.webm").

(** The example of the spec: a 1280x720 clip with sound, a streaming
    reference that downloads as 1920x1080 with sound. *)
Definition youtube : Env :=
  world fresh_disk (tools hd720 hd1080 one_track one_track).

(** Both clips 1280x720; the remote one, a file on disk, is silent. *)
Definition same_size : Env :=
  world (fun p => fresh_disk p || String.eqb p "/work/outro.mp4")
        (tools hd720 hd720 one_track "").



(** The generic fetch exits with an error. *)
Definition dead_link : Env :=
  world fresh_disk
        (fun args => if is_fetch args then Failed
                     else tools hd720 hd1080 one_track one_track args).

(** [ffprobe] lists the dimensions twice. *)
Definition doubled : Env :=
  world fresh_disk
        (tools (hd720 ++ hd720) (hd720 ++ hd720) one_track one_track).

(** [ffprobe] answers the audio query with a bare line break. *)
Definition blank_audio : Env :=
  world fresh_disk (tools hd720 hd720 nl nl).

(** The call of the spec's example, in the world [youtube]. *)
Definition youtube_run : result string * trace :=
  merge_local_with_remote youtube
    "intro.mp4" "https://youtu.be/XXXX" "~/out/merged.mp4" [].

(** Appending a clip that lies on disk, in the world [same_size]. *)
Definition same_size_run : result string * trace :=
  merge_local_with_remote same_size
    "intro.mp4" "/work/outro.mp4" "out.mp4" [].

(** The history at which a call in these worlds resolves the remote
    reference, and where it puts the clip. *)
Definition at_prepare (output_parent : string) : trace :=
  [EvRun version_args (Completed ""); EvMkdir output_parent; EvMkdtemp tmp].

Definition working_remote : string := tmp ++ "/remote.mp4".

(** A direct media link whose path mentions a listed domain. *)
Definition mirror_link : string :=
  "https://cdn.example.org/vimeo.com/clip.mp4".






(** The downloader names a file that it did not write. *)
Definition lost_download : Env :=
  world (fun p => String.eqb p local_clip)
        (tools hd720 hd1080 one_track one_track).

End Scenario.


(* ================================================================= *)
(** ** The course of a call *)

(** An effect that reports a failure. *)
Definition failed (e : event) : bool :=
  match e with
  | EvRun _ NotFound | EvRun _ Failed | EvRun _ (Broke _) => true
  | EvMkdirFailed _ _ => true
  | EvCopy2 _ _ (Some _) => true
  | EvYtdlp _ _ (YtRaised _) | EvYtdlp _ _ (YtBroke _) => true
  | _ => false
  end.

(** What a call still did after its first failed effect. *)
Fixpoint after_failure (tr : trace) : trace :=
  match tr with
  | [] => []
  | e :: tr' => if failed e then tr' else after_failure tr'
  end.

(** A call that stops before it has a temporary directory: at the local
    clip, at the guard, at the output path or its directory, or because
    no temporary directory can be made. *)
Definition stops_early (env : Env) (o : string) (tr : trace) : Prop :=
  let parent := path_parent (resolve env (expanduser env o)) in
  tr = []
  \/ (exists outcome, tr = [EvRun version_args outcome])
  \/ (exists out e,
         tr = [EvRun version_args (Completed out); EvMkdirFailed parent e])
  \/ (exists out, tr = [EvRun version_args (Completed out); EvMkdir parent]).

(** The kinds of child process the module starts. *)
Inductive stage : Type :=
| Guard | Fetch | ProbeDims | Rescale | ProbeAudio | Concat.

Definition stage_of (args : list string) : option stage :=
  if is_dims_probe args then Some ProbeDims
  else if is_audio_probe args then Some ProbeAudio
  else if is_scale args then Some Rescale
  else if is_concat args then Some Concat
  else if is_fetch args then Some Fetch
  else if String.eqb (hd "" args) "ffmpeg"
          && String.eqb (nth 1 args "") "-version" then Some Guard
  else None.

(** The kinds of the child processes of a trace, in the order they were
    started. *)
Definition stages (tr : trace) : list (option stage) :=
  map stage_of (commands (fun _ => true) tr).

(** The child processes of a complete merge: the stream copy is there
    when the remote clip is fetched by [ffmpeg], the rescale when the sizes
    differ. *)
Definition pipeline (fetch rescale : bool) : list (option stage) :=
  ([Some Guard]
     ++ (if fetch then [Some Fetch] else [])
     ++ [Some ProbeDims; Some ProbeDims]
     ++ (if rescale then [Some Rescale] else [])
     ++ [Some ProbeAudio; Some ProbeAudio; Some Concat])%list.

(** A character of the decimal form of an integer. *)
Definition plain (c : ascii) : bool :=
  PyStr.isdigit c || Ascii.eqb c "-".

(** The number of digits of the decimal form of an integer. *)
Definition decimal_digits (n : Z) : nat :=
  String.length (PyStr.of_int (Z.abs n)).

Fixpoint all_chars (p : ascii -> bool) (s : string) : bool :=
  match s with
  | EmptyString => true
  | String c s' => p c && all_chars p s'
  end.

(* ================================================================= *)
(** ** The caller: [news_cast.py] *)

Module NewsCast.

(** The values of [config.py] that [_resolve_paths] reads.  [os.getenv]
    without a default gives [None] for an unset variable; with a default it
    always gives a string, possibly empty. *)
Record Config : Type := {
  SAD_TALKER_VOICE_FILE : option string;
  SAD_TALKER_AUDIO_FILE : option string;
  SAD_TALKER_REFERENCE_IMAGE : string;
  SAD_TALKER_OUTPUT_DIR : string;
  SAD_TALKER_RESULT_DIR : string
}.

(** The parsed command line ([argparse.Namespace]) of [_build_parser]:
    an option without default that was not given is [None]. *)
Record Namespace : Type := {
  prompt : string;
  url : string;
  voice_file : option string;
  audio_output : option string;
  reference_image : option string;
  result_dir : option string;
  merged_output : string;
  vibe : string;
  engine : string;
  eleven_voice_id : option string
}.

(** [x if x else None] for an optional string: [None] and the empty
    string are false. *)
Definition if_set (x : option string) : option string :=
  match x with
  | Some s => if PyStr.truthy s then Some s else None
  | None => None
  end.

Section ResolvePaths.

(** [str(Path(s))]: the normal form [pathlib] gives a path string. *)
Variable Path : string -> string.

Variable config : Config.

(** Source lines 80 to 109. *)
Definition _resolve_paths (args : Namespace)
    : result (option string * string * string * string) :=
  let voice_path :=
    match if_set (voice_file args) with
    | Some s => Some (Path s)
    | None =>
        match if_set (SAD_TALKER_VOICE_FILE config) with
        | Some s => Some (Path s)
        | None => None
        end
    end in
  let audio_output :=
    match if_set (audio_output args) with
    | Some s => Path s
    | None =>
        match if_set (SAD_TALKER_AUDIO_FILE config) with
        | Some s => Path s
        | None => Path "outputs/tts_audio.mp3"
        end
    end in
  let reference_image :=
    match if_set (reference_image args) with
    | Some s => Some (Path s)
    | None =>
        if PyStr.truthy (SAD_TALKER_REFERENCE_IMAGE config)
        then Some (Path (SAD_TALKER_REFERENCE_IMAGE config))
        else None
    end in
  let resolved_result_dir :=
    match if_set (result_dir args) with
    | Some s => Some (Path s)
    | None => None
    end in
  let resolved_result_dir :=
    match resolved_result_dir with
    | Some d => d
    | None =>
        if PyStr.truthy (SAD_TALKER_RESULT_DIR config)
        then Path (SAD_TALKER_RESULT_DIR config)
        else Path (SAD_TALKER_OUTPUT_DIR config)
    end in
  match reference_image with
  | None =>
      Raise (ValueError
               "Reference image must be provided via config or --reference-image.")
  | Some reference_image =>
      Ok (voice_path, audio_output, reference_image, resolved_result_dir)
  end.

End ResolvePaths.

(** The command line with every empty path option taken away. *)
Definition without_empty_options (args : Namespace) : Namespace :=
  {| prompt := prompt args;
     url := url args;
     voice_file := if_set (voice_file args);
     audio_output := if_set (audio_output args);
     reference_image := if_set (reference_image args);
     result_dir := if_set (result_dir args);
     merged_output := merged_output args;
     vibe := vibe args;
     engine := engine args;
     eleven_voice_id := eleven_voice_id args |}.

End NewsCast.

(* ================================================================= *)
(** ** More concrete worlds *)

Module Cases.

Definition dead_link_run : result string * trace :=
  merge_local_with_remote Scenario.dead_link
    "intro.mp4" "https://example.org/a.mp4" "out.mp4" [].

(** A configuration whose reference image was set to the empty string. *)
Definition no_image : NewsCast.Config :=
  {| NewsCast.SAD_TALKER_VOICE_FILE := None;
     NewsCast.SAD_TALKER_AUDIO_FILE := None;
     NewsCast.SAD_TALKER_REFERENCE_IMAGE := "";
     NewsCast.SAD_TALKER_OUTPUT_DIR := "outputs/sadtalker";
     NewsCast.SAD_TALKER_RESULT_DIR := "outputs/sadtalker" |}.

(** A command line with the two required options and, possibly, a
    reference image. *)
Definition command_line (image : option string) : NewsCast.Namespace :=
  {| NewsCast.prompt := "Good evening.";
     NewsCast.url := "https://youtu.be/XXXX";
     NewsCast.voice_file := None;
     NewsCast.audio_output := Some "";
     NewsCast.reference_image := image;
     NewsCast.result_dir := None;
     NewsCast.merged_output := "outputs/sadtalker/news_cast.mp4";
     NewsCast.vibe := "audio";
     NewsCast.engine := "xai";
     NewsCast.eleven_voice_id := None |}.

End Cases.

(* ================================================================= *)
(** ** Proof support *)

Ltac unfold_program :=
  unfold merge_local_with_remote, merge_in_tmpdir, _prepare_remote_clip,
    _download_remote_clip, _download_with_ytdlp, _concat_with_reencoding,
    _scale_video_to_target, _probe_video_dimensions, _has_audio_stream,
    _ensure_ffmpeg_available, with_TemporaryDirectory, ytdlp_session,
    copy2_, replace_, mkdir_, exists_, resolve_, expanduser_, library,
    subprocess_run, try_except, lift, bind, ret, raise in *.

(** Case analysis on an innermost scrutinee of the goal; an exception
    that comes from the library is told apart by the error behind it. *)
Ltac split_scrutinee :=
  match goal with
  | |- context [match to_exn ?e with _ => _ end] =>
      destruct e; cbn [to_exn]
  | |- context [match ?x with _ => _ end] =>
      lazymatch x with
      | context [match _ with _ => _ end] => fail
      | _ => destruct x eqn:?
      end
  end.

Ltac run_program :=
  unfold_program; cbn [app fst snd negb andb];
  repeat (split_scrutinee; cbn [app fst snd negb andb]).

(** *** Which effects a computation can have *)

Section Emits.

Variable env : Env.
Variable P : event -> Prop.

Lemma emits_ret A (a : A) : emits P (ret a).
Proof.
  intros tr r tr' H; inversion H; subst.
  exists []; split; [now rewrite app_nil_r | constructor].
Qed.

Lemma emits_lift A (x : result A) : emits P (lift x).
Proof.
  intros tr r tr' H; inversion H; subst.
  exists []; split; [now rewrite app_nil_r | constructor].
Qed.

Lemma emits_raise A (e : exn) : emits P (@raise A e).
Proof.
  intros tr r tr' H; inversion H; subst.
  exists []; split; [now rewrite app_nil_r | constructor].
Qed.

Lemma emits_library A c (answer : trace -> A) : emits P (library env c answer).
Proof.
  intros tr r tr' H. unfold library in H.
  destruct (fault env tr c); inversion H; subst;
    (exists []; split; [now rewrite app_nil_r | constructor]).
Qed.

Lemma emits_mkdir p :
  P (EvMkdir p) -> (forall e, P (EvMkdirFailed p e)) -> emits P (mkdir_ env p).
Proof.
  intros Hok Hfail tr r tr' H. unfold mkdir_ in H.
  destruct (fault env tr (Mkdir p)) as [e|]; inversion H; subst.
  - exists [EvMkdirFailed p e]; split; [reflexivity|repeat constructor; apply Hfail].
  - exists [EvMkdir p]; split; [reflexivity|repeat constructor; exact Hok].
Qed.

Lemma emits_replace source destination :
  P (EvReplace source destination) ->
  emits P (replace_ env source destination).
Proof.
  intros HP tr r tr' H. unfold replace_ in H.
  destruct (fault env tr _); inversion H; subst.
  - exists []; split; [now rewrite app_nil_r | constructor].
  - exists [EvReplace source destination].
    split; [reflexivity|repeat constructor; exact HP].
Qed.

Lemma emits_bind A B (m : M A) (k : A -> M B) :
  emits P m -> (forall a, emits P (k a)) -> emits P (bind m k).
Proof.
  intros Hm Hk tr r tr' H. unfold bind in H.
  destruct (m tr) as [[a|e] t1] eqn:E; destruct (Hm _ _ _ E) as (n1 & -> & F1).
  - destruct (Hk a _ _ _ H) as (n2 & -> & F2).
    exists (n1 ++ n2)%list; split; [now rewrite app_assoc | now apply Forall_app].
  - inversion H; subst. now exists n1.
Qed.

Lemma emits_try_except A (m : M A) (handler : exn -> M A) :
  emits P m -> (forall e, emits P (handler e)) -> emits P (try_except m handler).
Proof.
  intros Hm Hh tr r tr' H. unfold try_except in H.
  destruct (m tr) as [[a|e] t1] eqn:E; destruct (Hm _ _ _ E) as (n1 & -> & F1).
  - inversion H; subst. now exists n1.
  - destruct (Hh e _ _ _ H) as (n2 & -> & F2).
    exists (n1 ++ n2)%list; split; [now rewrite app_assoc | now apply Forall_app].
Qed.

Lemma emits_subprocess_run args :
  (forall outcome, P (EvRun args outcome)) -> emits P (subprocess_run env args).
Proof.
  intros HP tr r tr' H. unfold subprocess_run in H.
  exists [EvRun args (run env tr args)]; split; [|repeat constructor; apply HP].
  destruct (run env tr args); inversion H; reflexivity.
Qed.

Lemma emits_copy2 source destination :
  (forall failure, P (EvCopy2 source destination failure)) ->
  emits P (copy2_ env source destination).
Proof.
  intros HP tr r tr' H. unfold copy2_ in H.
  exists [EvCopy2 source destination (copy2 env tr source destination)].
  split; [|repeat constructor; apply HP].
  destruct (copy2 env tr source destination); inversion H; reflexivity.
Qed.

Lemma emits_ytdlp_session url opts :
  (forall outcome, P (EvYtdlp url opts outcome)) ->
  emits P (ytdlp_session env url opts).
Proof.
  intros HP tr r tr' H. unfold ytdlp_session in H.
  exists [EvYtdlp url opts (ytdlp_extract env tr url opts)].
  split; [|repeat constructor; apply HP].
  destruct (ytdlp_extract env tr url opts); inversion H; reflexivity.
Qed.


End Emits.


(** *** Stepping through a computation *)





(** Goals [emits env P m] for a computation [m] of the program, given
    that [P] accepts every effect other than the two on temporary
    directories. *)
Ltac emits_step solve_P :=
  match goal with
  | |- emits _ (bind _ _) => apply emits_bind; [|intro]
  | |- emits _ (try_except _ _) => apply emits_try_except; [|intro]
  | |- emits _ (ret _) => apply emits_ret
  | |- emits _ (lift _) => apply emits_lift
  | |- emits _ (raise _) => apply emits_raise
  | |- emits _ (library _ _ _) => apply emits_library
  | |- emits _ (exists_ _ _) => apply emits_library
  | |- emits _ (expanduser_ _ _) => apply emits_library
  | |- emits _ (resolve_ _ _) => apply emits_library
  | |- emits _ (mkdir_ _ _) => apply emits_mkdir; [|intro]; solve_P
  | |- emits _ (replace_ _ _ _) => apply emits_replace; solve_P
  | |- emits _ (subprocess_run _ _) => apply emits_subprocess_run; intro; solve_P
  | |- emits _ (copy2_ _ _ _) => apply emits_copy2; intro; solve_P
  | |- emits _ (ytdlp_session _ _ _) => apply emits_ytdlp_session; intro; solve_P
  | |- emits _ (match ?x with _ => _ end) => destruct x
  | |- emits _ (let _ := _ in _) => cbv zeta
  end.

Ltac prove_emits solve_P := repeat emits_step solve_P.

Lemma prepare_emits_no_tmp env url destination :
  emits no_tmp (_prepare_remote_clip env url destination).
Proof.
  unfold _prepare_remote_clip, _download_with_ytdlp, _download_remote_clip.
  prove_emits ltac:(exact I).
Qed.

Lemma merge_in_tmpdir_emits_no_tmp env lp url op d :
  emits no_tmp (merge_in_tmpdir env lp url op d).
Proof.
  unfold merge_in_tmpdir. cbv zeta.
  apply emits_bind; [apply prepare_emits_no_tmp | intro].
  unfold _probe_video_dimensions, _has_audio_stream, _scale_video_to_target,
    _concat_with_reencoding.
  prove_emits ltac:(exact I).
Qed.

(** *** The shape of a run *)

Lemma with_TemporaryDirectory_trace env A (body : string -> M A) tr r tr' :
  (forall d, emits no_tmp (body d)) ->
  fault env tr Mkdtemp = None ->
  with_TemporaryDirectory env body tr = (r, tr') ->
  exists new,
    body (mkdtemp env tr) (tr ++ [EvMkdtemp (mkdtemp env tr)])%list
      = (r, (tr ++ EvMkdtemp (mkdtemp env tr) :: new)%list)
    /\ tr' = (tr ++ EvMkdtemp (mkdtemp env tr) :: new
                ++ [EvRmtree (mkdtemp env tr)])%list
    /\ Forall no_tmp new.
Proof.
  intros Hbody Hf H. unfold with_TemporaryDirectory in H. rewrite Hf in H.
  destruct (body _ _) as [rb tb] eqn:E.
  destruct (Hbody _ _ _ _ E) as (new & -> & Hnew).
  inversion H; subst. exists new.
  rewrite <- !app_assoc. cbn [app]. auto.
Qed.

(** A call either stops early, or creates the output's directory and
    works inside one temporary directory that it removes last. *)
Lemma merge_run env l r o res tr :
  merge_local_with_remote env l r o [] = (res, tr) ->
  let local_path := resolve env (expanduser env l) in
  let output_path := resolve env (expanduser env o) in
  ((exists e, res = Raise e) /\ stops_early env o tr)
  \/ (exists out rb new,
         let t0 := [EvRun version_args (Completed out);
                    EvMkdir (path_parent output_path)] in
         let d := mkdtemp env t0 in
         merge_in_tmpdir env local_path r output_path d
                         (t0 ++ [EvMkdtemp d])%list
           = (rb, (t0 ++ EvMkdtemp d :: new)%list)
         /\ Forall no_tmp new
         /\ res = match rb with Ok _ => Ok output_path | Raise e => Raise e end
         /\ tr = (t0 ++ EvMkdtemp d :: new ++ [EvRmtree d])%list).
Proof.
  cbv zeta. unfold stops_early.
  unfold merge_local_with_remote, _ensure_ffmpeg_available, try_except,
    subprocess_run, mkdir_, exists_, resolve_, expanduser_, library, bind,
    ret, raise.
  assert (Stop : forall e t,
             stops_early env o t ->
             (Raise e, t) = (res, tr) ->
             (exists e, res = Raise e) /\ stops_early env o tr)
    by (intros e t Hs H; inversion H; subst; eauto).
  unfold stops_early in Stop.
  destruct (fault env [] (Expanduser l));
    [intro H; left; apply (Stop _ _ (or_introl eq_refl) H)|].
  destruct (fault env [] (Resolve _));
    [intro H; left; apply (Stop _ _ (or_introl eq_refl) H)|].
  destruct (fault env [] (Exists _));
    [intro H; left; apply (Stop _ _ (or_introl eq_refl) H)|].
  destruct (path_exists env [] _); cbn [negb];
    [|intro H; left; apply (Stop _ _ (or_introl eq_refl) H)].
  cbn [app].
  destruct (run env [] version_args) as [| |out|e].
  1,2: intro H; left; eapply Stop; [|exact H]; eauto.
  2: destruct e; cbn [to_exn]; intro H; left; (eapply Stop; [|exact H]); eauto.
  set (g := [EvRun version_args (Completed out)]).
  destruct (fault env g (Expanduser o));
    [intro H; left; eapply Stop; [|exact H]; subst g; eauto|].
  destruct (fault env g (Resolve _));
    [intro H; left; eapply Stop; [|exact H]; subst g; eauto|].
  destruct (fault env g (Mkdir _));
    [intro H; left; eapply Stop; [|exact H]; subst g; cbn [app]; eauto 6|].
  subst g. cbn [app].
  match goal with
  | |- context [with_TemporaryDirectory env _ ?t] =>
      destruct (fault env t Mkdtemp) eqn:Hf
  end.
  { unfold with_TemporaryDirectory. rewrite Hf.
    intro H; left; eapply Stop; [|exact H]; eauto 6. }
  destruct (with_TemporaryDirectory env _ _) as [rb tb] eqn:E.
  apply with_TemporaryDirectory_trace in E;
    [|intro; apply merge_in_tmpdir_emits_no_tmp|exact Hf].
  destruct E as (new & Hbody & -> & Hnew).
  intro H. right. exists out, rb, new. repeat split; auto.
  all: destruct rb; inversion H; reflexivity.
Qed.

(** The same, read forward: a call whose local clip is there, whose
    guard completes and whose library calls answer enters the block. *)
Lemma merge_enters env l r o out :
  let local_path := resolve env (expanduser env l) in
  let output_path := resolve env (expanduser env o) in
  let g := [EvRun version_args (Completed out)] in
  let t0 := [EvRun version_args (Completed out);
             EvMkdir (path_parent output_path)] in
  let d := mkdtemp env t0 in
  fault env [] (Expanduser l) = None ->
  fault env [] (Resolve (expanduser env l)) = None ->
  fault env [] (Exists local_path) = None ->
  path_exists env [] local_path = true ->
  run env [] version_args = Completed out ->
  fault env g (Expanduser o) = None ->
  fault env g (Resolve (expanduser env o)) = None ->
  fault env g (Mkdir (path_parent output_path)) = None ->
  fault env t0 Mkdtemp = None ->
  exists rb new,
    merge_in_tmpdir env local_path r output_path d (t0 ++ [EvMkdtemp d])%list
      = (rb, (t0 ++ EvMkdtemp d :: new)%list)
    /\ Forall no_tmp new
    /\ merge_local_with_remote env l r o [] =
         (match rb with Ok _ => Ok output_path | Raise e => Raise e end,
          (t0 ++ EvMkdtemp d :: new ++ [EvRmtree d])%list).
Proof.
  cbv zeta. intros F1 F2 F3 Hex G F4 F5 F6 F7.
  unfold merge_local_with_remote, _ensure_ffmpeg_available, try_except,
    subprocess_run, mkdir_, exists_, resolve_, expanduser_, library, bind,
    ret, raise.
  rewrite F1, F2, F3, Hex. cbn [negb app]. rewrite G, F4, F5, F6. cbn [app].
  destruct (with_TemporaryDirectory env _ _) as [rb tb] eqn:E.
  apply with_TemporaryDirectory_trace in E;
    [|intro; apply merge_in_tmpdir_emits_no_tmp|exact F7].
  destruct E as (new & Hbody & -> & Hnew).
  exists rb, new. repeat split; auto.
  destruct rb; reflexivity.
Qed.

Lemma merge_in_tmpdir_prepare_first env lp url op d tr rb tb :
  merge_in_tmpdir env lp url op d tr = (rb, tb) ->
  exists r1 t1 rest,
    _prepare_remote_clip env url (path_join d "remote.mp4") tr = (r1, t1)
    /\ tb = (t1 ++ rest)%list
    /\ (forall e, r1 = Raise e -> rb = Raise e /\ rest = []).
Proof.
  unfold merge_in_tmpdir. cbv zeta. unfold bind at 1.
  destruct (_prepare_remote_clip env url _ tr) as [[[]|e] t1] eqn:E; intro H.
  - assert (Hk : exists rest, tb = (t1 ++ rest)%list).
    { match type of H with
      | ?k t1 = _ =>
          assert (Hk : emits (fun _ => True) k);
          [|destruct (Hk _ _ _ H) as (rest & -> & _); now exists rest]
      end.
      unfold _probe_video_dimensions, _has_audio_stream,
        _scale_video_to_target, _concat_with_reencoding.
      prove_emits ltac:(exact I). }
    destruct Hk as (rest & ->).
    exists (Ok tt), t1, rest. repeat split; auto; discriminate.
  - inversion H; subst. exists (Raise e), tb, [].
    rewrite app_nil_r. repeat split; auto; now inversion H0.
Qed.

Lemma live_tmpdirs_no_tmp live tr :
  Forall no_tmp tr -> live_tmpdirs live tr = live.
Proof.
  induction 1 as [|e tr He _ IH]; [reflexivity|].
  destruct e; cbn in *; auto; contradiction.
Qed.

Lemma live_tmpdirs_app live tr tr' :
  live_tmpdirs live (tr ++ tr')%list = live_tmpdirs (live_tmpdirs live tr) tr'.
Proof.
  revert live; induction tr as [|e tr IH]; intro live; [reflexivity|].
  destruct e; cbn; apply IH.
Qed.

Lemma leftovers_app fs tr tr' :
  leftovers fs (tr ++ tr')%list = leftovers (leftovers fs tr) tr'.
Proof.
  revert fs; induction tr as [|e tr IH]; intro fs; [reflexivity|].
  destruct e; cbn [leftovers app]; apply IH.
Qed.

Lemma prefix_app a b : prefix a (a ++ b) = true.
Proof.
  induction a as [|c a IH]; cbn; [now destruct b|].
  destruct (ascii_dec c c); [exact IH|congruence].
Qed.

Lemma append_assoc3 (a b c : string) : (a ++ b) ++ c = a ++ b ++ c.
Proof.
  induction a as [|x a IH]; cbn; [reflexivity|now rewrite IH].
Qed.

Lemma within_path_join d name : within d (path_join d name) = true.
Proof.
  unfold within, path_join.
  rewrite <- append_assoc3, prefix_app. apply orb_true_r.
Qed.

Lemma no_tmp_not_mkdtemp new d : Forall no_tmp new -> ~ In (EvMkdtemp d) new.
Proof.
  intros F Hin. rewrite Forall_forall in F. exact (F _ Hin).
Qed.

Lemma no_tmp_not_rmtree new d : Forall no_tmp new -> ~ In (EvRmtree d) new.
Proof.
  intros F Hin. rewrite Forall_forall in F. exact (F _ Hin).
Qed.

(** A call that stops early has no temporary directory. *)
Lemma stops_early_no_tmp env o tr : stops_early env o tr -> Forall no_tmp tr.
Proof.
  intros [->|[(oc & ->)|[(out & e & ->)|(out & ->)]]];
    repeat constructor.
Qed.

(** The runs with a temporary directory, as [merge_run] gives them. *)
Lemma merge_run_with_tmpdir env l r o res tr d :
  merge_local_with_remote env l r o [] = (res, tr) ->
  In (EvMkdtemp d) tr ->
  let local_path := resolve env (expanduser env l) in
  let output_path := resolve env (expanduser env o) in
  exists out rb new,
    let t0 := [EvRun version_args (Completed out);
               EvMkdir (path_parent output_path)] in
    d = mkdtemp env t0
    /\ merge_in_tmpdir env local_path r output_path d
                       (t0 ++ [EvMkdtemp d])%list
         = (rb, (t0 ++ EvMkdtemp d :: new)%list)
    /\ Forall no_tmp new
    /\ res = match rb with Ok _ => Ok output_path | Raise e => Raise e end
    /\ tr = (t0 ++ EvMkdtemp d :: new ++ [EvRmtree d])%list.
Proof.
  intros H Hin. cbv zeta.
  destruct (merge_run _ _ _ _ H) as [[_ Hs]|(out & rb & new & Hb & Hn & Hr & Ht)].
  - apply stops_early_no_tmp in Hs.
    now apply no_tmp_not_mkdtemp with (d := d) in Hs.
  - cbv zeta in *. exists out, rb, new.
    assert (d = mkdtemp env [EvRun version_args (Completed out);
              EvMkdir (path_parent (resolve env (expanduser env o)))]) as ->.
    { rewrite Ht in Hin. cbn [app] in Hin.
      destruct Hin as [Hin|[Hin|[Hin|Hin]]]; try discriminate; [congruence|].
      apply in_app_or in Hin. destruct Hin as [Hin|[Hin|[]]]; [|discriminate].
      now apply no_tmp_not_mkdtemp in Hin. }
    auto.
Qed.
(* ================================================================= *)
(** ** Order of the first steps (C7, C10) and the temporary directory (C8) *)


(** C8. In every call that creates its temporary directory [d], whatever
    the result (a path or any exception), the removal of [d] is the last
    effect, no temporary directory is left alive, and nothing the call
    created inside [d] is left: neither the fetched clip [d/remote.mp4] nor
    the rescaled [d/remote_scaled.mp4]. *)
Theorem tmpdir_removed_on_every_path env l r o res tr d :
  merge_local_with_remote env l r o [] = (res, tr) ->
  In (EvMkdtemp d) tr ->
  (exists before, tr = (before ++ [EvRmtree d])%list)
  /\ live_tmpdirs [] tr = []
  /\ (forall p, In p (leftovers [] tr) -> within d p = false)
  /\ ~ In (path_join d "remote.mp4") (leftovers [] tr)
  /\ ~ In (path_join d "remote_scaled.mp4") (leftovers [] tr).
Proof.
  intros H Hin.
  destruct (@merge_run_with_tmpdir env l r o res tr d H Hin)
    as (out & rb & new & _ & _ & Hnew & _ & Htr).
  cbv zeta in Htr. clear H Hin.
  set (parent := path_parent (resolve env (expanduser env o))) in *.
  assert (Htr' : tr = (([EvRun version_args (Completed out); EvMkdir parent;
                         EvMkdtemp d] ++ new) ++ [EvRmtree d])%list).
  { rewrite Htr, <- app_assoc. reflexivity. }
  clear Htr.
  assert (Hleft : forall p, In p (leftovers [] tr) -> within d p = false).
  { intros p Hp. rewrite Htr', leftovers_app in Hp. cbn [leftovers] in Hp.
    apply filter_In in Hp. now apply negb_true_iff. }
  split; [|split; [|split; [exact Hleft|split]]].
  - eexists. exact Htr'.
  - rewrite Htr', !live_tmpdirs_app. cbn [live_tmpdirs app].
    rewrite live_tmpdirs_no_tmp by exact Hnew.
    cbn. now rewrite String.eqb_refl.
  - intro Hp. apply Hleft in Hp. now rewrite within_path_join in Hp.
  - intro Hp. apply Hleft in Hp. now rewrite within_path_join in Hp.
Qed.

(** What the call made stays, unless an effect removes or renames it. *)
Lemma leftovers_keeps p tr fs :
  In p fs ->
  Forall (fun e =>
            match e with
            | EvRmtree x => within x p = false
            | EvReplace source _ => source <> p
            | _ => True
            end) tr ->
  In p (leftovers fs tr).
Proof.
  intros Hin F. revert fs Hin.
  induction F as [|e tr He _ IH]; intros fs Hin; [exact Hin|].
  destruct e; cbn [leftovers]; apply IH;
    try (apply in_or_app; now right).
  - apply filter_In. split; [exact Hin|]. now rewrite He.
  - right. apply filter_In. split; [exact Hin|].
    apply negb_true_iff, String.eqb_neq. congruence.
Qed.

(** C10. In every call that gets past the guard and whose library calls
    answer, the creation of the parent directory of the resolved output
    path is the effect that follows the guard; the temporary directory
    and the acquisition of the remote clip come after it.  Whatever the
    result, the call removes no directory but its temporary one, so the
    created parent stays: it is among what the call leaves behind, as
    long as it does not lie in the temporary directory and the downloader
    has not named it as its download.  A successful call returns the
    resolved output path. *)
Theorem output_parent_created_before_remote env l r o out res tr :
  let local_path := resolve env (expanduser env l) in
  let output_path := resolve env (expanduser env o) in
  let g := [EvRun version_args (Completed out)] in
  let t0 := [EvRun version_args (Completed out);
             EvMkdir (path_parent output_path)] in
  let d := mkdtemp env t0 in
  fault env [] (Expanduser l) = None ->
  fault env [] (Resolve (expanduser env l)) = None ->
  fault env [] (Exists local_path) = None ->
  path_exists env [] local_path = true ->
  run env [] version_args = Completed out ->
  fault env g (Expanduser o) = None ->
  fault env g (Resolve (expanduser env o)) = None ->
  fault env g (Mkdir (path_parent output_path)) = None ->
  fault env t0 Mkdtemp = None ->
  merge_local_with_remote env l r o [] = (res, tr) ->
  (exists r1 t1 rest,
      _prepare_remote_clip env r (path_join d "remote.mp4")
                           (t0 ++ [EvMkdtemp d])%list = (r1, t1)
      /\ (exists fetched, t1 = (t0 ++ EvMkdtemp d :: fetched)%list)
      /\ tr = (t1 ++ rest)%list)
  /\ (forall x, In (EvRmtree x) tr -> x = d)
  /\ (within d (path_parent output_path) = false ->
      (forall target, ~ In (EvReplace (path_parent output_path) target) tr) ->
      In (path_parent output_path) (leftovers [] tr))
  /\ (forall p, res = Ok p -> p = output_path).
Proof.
  cbv zeta. intros F1 F2 F3 Hex G F4 F5 F6 F7 H.
  destruct (@merge_enters env l r o out F1 F2 F3 Hex G F4 F5 F6 F7)
    as (rb & new & Hbody & Hnew & U).
  rewrite U in H. inversion H; subst res tr; clear H U.
  cbn [app] in *.
  set (parent := path_parent (resolve env (expanduser env o))) in *.
  set (d := mkdtemp env _) in *.
  split; [|split; [|split]].
  - destruct (merge_in_tmpdir_prepare_first _ _ _ _ _ _ Hbody)
      as (r1 & t1 & rest & Hp & Ht & _).
    destruct (@prepare_emits_no_tmp env _ _ _ _ _ Hp) as (fetched & -> & _).
    exists r1, ([EvRun version_args (Completed out); EvMkdir parent;
                 EvMkdtemp d] ++ fetched)%list, (rest ++ [EvRmtree d])%list.
    split; [exact Hp|split].
    + exists fetched. reflexivity.
    + rewrite app_assoc, <- Ht. reflexivity.
  - intros x Hin.
    destruct Hin as [Hin|[Hin|[Hin|Hin]]]; try discriminate.
    apply in_app_or in Hin. destruct Hin as [Hin|[Hin|[]]]; [|congruence].
    now apply no_tmp_not_rmtree in Hin.
  - intros Hfresh Hkept.
    change (leftovers []
              (EvRun version_args (Completed out) :: EvMkdir parent
                 :: EvMkdtemp d :: new ++ [EvRmtree d]))
      with (leftovers ((parent :: path_ancestors parent) ++ [])
              (EvMkdtemp d :: new ++ [EvRmtree d])).
    apply leftovers_keeps; [now left|].
    constructor; [exact I|]. apply Forall_app. split.
    + rewrite Forall_forall in Hnew |- *. intros e He.
      specialize (Hnew e He). destruct e; try exact I; try contradiction.
      intros ->. apply (Hkept destination).
      do 3 right. apply in_or_app. now left.
    + repeat constructor. exact Hfresh.
  - intros p Hp. destruct rb; congruence.
Qed.
(* ================================================================= *)
(** ** Substrings *)

Lemma prefix_spec a b : prefix a b = true <-> exists post, b = a ++ post.
Proof.
  revert b; induction a as [|c a IH]; intro b.
  - split; [intros _; exists b; reflexivity|now destruct b].
  - destruct b as [|c' b]; cbn;
      [split; [discriminate|intros [? ?]; discriminate]|].
    destruct (ascii_dec c c') as [->|Hc].
    + rewrite IH. split; intros [post Hp]; exists post; congruence.
    + split; [discriminate|intros [post Hp]; congruence].
Qed.

(** [needle in hay] holds exactly when [hay] is [needle] with something
    before and something after. *)
Lemma contains_spec needle hay :
  PyStr.contains needle hay = true
  <-> exists before after, hay = before ++ needle ++ after.
Proof.
  induction hay as [|c hay IH]; cbn [PyStr.contains];
    rewrite orb_true_iff, prefix_spec.
  - split.
    + intros [[post Hp]|H]; [exists "", post; exact Hp|discriminate].
    + intros ([|? ?] & after & H); [left; now exists after|discriminate].
  - rewrite IH. split.
    + intros [[post Hp]|(before & after & H)].
      * exists "", post; exact Hp.
      * exists (String c before), after. cbn. now rewrite H.
    + intros ([|c' before] & after & H).
      * left; now exists after.
      * right; exists before, after. cbn in H. congruence.
Qed.

Lemma lower_app a b : PyStr.lower (a ++ b) = PyStr.lower a ++ PyStr.lower b.
Proof.
  induction a as [|c a IH]; cbn; [reflexivity|now rewrite IH].
Qed.

Lemma skip_suffix n s : exists pre, s = pre ++ skip n s.
Proof.
  revert s; induction n as [|n IH]; intro s; [now exists ""|].
  destruct s as [|c s]; [now exists ""|].
  destruct (IH s) as (pre & Hp). exists (String c pre). cbn. congruence.
Qed.

Lemma after_scheme_suffix s r :
  after_scheme s = Some r -> exists pre, s = pre ++ r.
Proof.
  revert r; induction s as [|c s IH]; intro r; [discriminate|].
  cbn [after_scheme]. destruct (prefix "://" (String c s)).
  - intro H. injection H as <-. exact (skip_suffix 3 (String c s)).
  - intro H. destruct (IH _ H) as (pre & ->). now exists (String c pre).
Qed.

Lemma take_until_prefix stop s : exists post, s = take_until stop s ++ post.
Proof.
  induction s as [|c s IH]; [now exists ""|]. cbn.
  destruct (stop c); [now exists (String c s)|].
  destruct IH as (post & Hp). exists post. cbn. congruence.
Qed.

Lemma after_last_suffix c0 s r :
  after_last c0 s = Some r -> exists pre, s = pre ++ r.
Proof.
  revert r; induction s as [|c s IH]; intro r; [discriminate|].
  cbn [after_last]. destruct (after_last c0 s) as [r'|].
  - intro H; inversion H; subst. destruct (IH _ eq_refl) as (pre & ->).
    now exists (String c pre).
  - destruct (Ascii.eqb c c0); [|discriminate].
    intro H; inversion H; subst. now exists (String c "").
Qed.

(** The host is a piece of the reference. *)
Lemma url_host_inside url :
  exists before after, url = before ++ url_host url ++ after.
Proof.
  unfold url_host.
  set (rest := match after_scheme url with Some r => r | None => url end).
  assert (H1 : exists p1, url = p1 ++ rest).
  { subst rest. destruct (after_scheme url) eqn:E;
      [now apply after_scheme_suffix|now exists ""]. }
  destruct H1 as (p1 & H1).
  set (authority := take_until _ rest).
  destruct (take_until_prefix
              (fun c => Ascii.eqb c "/" || Ascii.eqb c "?" || Ascii.eqb c "#")%char
              rest) as (q1 & H2). fold authority in H2.
  set (hostport := match after_last "@" authority with
                   | Some h => h | None => authority end).
  assert (H3 : exists p2, authority = p2 ++ hostport).
  { subst hostport. destruct (after_last "@" authority) eqn:E;
      [now apply after_last_suffix in E|now exists ""]. }
  destruct H3 as (p2 & H3).
  destruct (take_until_prefix (fun c => Ascii.eqb c ":"%char) hostport)
    as (q2 & H4).
  set (host := take_until _ hostport) in *.
  exists (p1 ++ p2), (q2 ++ q1).
  rewrite H1, H2, H3, H4 at 1. now rewrite !append_assoc3.
Qed.

Lemma ends_with_spec suffix s :
  ends_with suffix s = true -> exists pre, s = pre ++ suffix.
Proof.
  induction s as [|c s IH]; cbn [ends_with]; rewrite orb_true_iff.
  - intros [H|H]; [|discriminate]. apply String.eqb_eq in H. now exists "".
  - intros [H|H].
    + apply String.eqb_eq in H. now exists "".
    + destruct (IH H) as (pre & ->). now exists (String c pre).
Qed.

Lemma host_on_domain_ends host domain :
  host_on_domain host domain = true -> exists pre, host = pre ++ domain.
Proof.
  unfold host_on_domain. rewrite orb_true_iff. intros [H|H].
  - apply String.eqb_eq in H. now exists "".
  - apply ends_with_spec in H. destruct H as (pre & ->).
    exists (pre ++ "."). now rewrite append_assoc3.
Qed.

(** The code's test in words: some listed domain occurs somewhere in the
    lower-cased reference. *)
Lemma is_streaming_url_spec url :
  _is_streaming_url url = true
  <-> exists domain before after,
        In domain STREAMING_DOMAINS
        /\ PyStr.lower url = before ++ domain ++ after.
Proof.
  unfold _is_streaming_url. rewrite existsb_exists. split.
  - intros (domain & Hin & Hc). apply contains_spec in Hc.
    destruct Hc as (before & after & Hc). now exists domain, before, after.
  - intros (domain & before & after & Hin & Hc). exists domain. split; [exact Hin|].
    apply contains_spec. now exists before, after.
Qed.

Lemma host_match_is_streaming url :
  spec_host_is_streaming url = true -> _is_streaming_url url = true.
Proof.
  unfold spec_host_is_streaming. rewrite existsb_exists.
  intros (domain & Hin & Hd). apply host_on_domain_ends in Hd.
  destruct Hd as (pre & Hd).
  destruct (url_host_inside url) as (before & after & Hu).
  apply is_streaming_url_spec.
  exists domain, (PyStr.lower before ++ pre), (PyStr.lower after).
  split; [exact Hin|].
  rewrite Hu at 1. rewrite !lower_app, Hd. now rewrite !append_assoc3.
Qed.

(* ================================================================= *)
(** ** Acquiring the remote clip (C3, C4) *)

(** The downloader strategy starts no child process and copies nothing. *)
Lemma download_with_ytdlp_own_effects env url destination :
  emits (fun e => is_run e = false /\ is_copy e = false)
        (_download_with_ytdlp env url destination).
Proof.
  unfold _download_with_ytdlp.
  prove_emits ltac:(split; reflexivity).
Qed.

Lemma prepare_cases env url destination tr :
  _prepare_remote_clip env url destination tr =
    match fault env tr (Expanduser url) with
    | Some e => (Raise (to_exn e), tr)
    | None =>
        match fault env tr (Exists (expanduser env url)) with
        | Some e => (Raise (to_exn e), tr)
        | None =>
            if path_exists env tr (expanduser env url) then
              copy2_ env (expanduser env url) destination tr
            else if _is_streaming_url url then
              _download_with_ytdlp env url destination tr
            else
              _download_remote_clip env url destination tr
        end
    end.
Proof.
  unfold _prepare_remote_clip, exists_, expanduser_, library, bind.
  destruct (fault env tr (Expanduser url)); [reflexivity|].
  destruct (fault env tr (Exists _)); [reflexivity|].
  destruct (path_exists env tr _); [reflexivity|].
  destruct (_is_streaming_url url); reflexivity.
Qed.

(** Every way the downloader strategy can go. *)
Lemma download_with_ytdlp_cases env url destination tr :
  let parent := path_parent destination in
  let opts :=
    {| outtmpl := path_join parent "remote.%(ext)s";
       format := "bestvideo+bestaudio/best";
       noplaylist := true;
       quiet := true;
       no_warnings := true |} in
  let t1 := (tr ++ [EvMkdir parent])%list in
  let t2 := (t1 ++ [EvYtdlp url opts (ytdlp_extract env t1 url opts)])%list in
  _download_with_ytdlp env url destination tr =
    if negb (ytdlp_importable env) then
      (Raise (RuntimeError
                "yt-dlp is required for streaming URLs like X/YouTube"), tr)
    else
      match fault env tr (Mkdir parent) with
      | Some e => (Raise (to_exn e), (tr ++ [EvMkdirFailed parent e])%list)
      | None =>
          match ytdlp_extract env t1 url opts with
          | YtRaised msg => (Raise (DownloadError msg), t2)
          | YtBroke e => (Raise (to_exn e), t2)
          | YtPrepared name =>
              match fault env t2 (Exists name) with
              | Some e => (Raise (to_exn e), t2)
              | None =>
                  if path_exists env t2 name then
                    match fault env t2 (Replace name destination) with
                    | Some e => (Raise (to_exn e), t2)
                    | None =>
                        (Ok tt, (t2 ++ [EvReplace name destination])%list)
                    end
                  else
                    (Raise (RuntimeError
                              ("yt-dlp failed to download " ++ url)), t2)
              end
          end
      end.
Proof.
  cbv zeta.
  unfold _download_with_ytdlp, ytdlp_session, replace_, mkdir_, exists_,
    library, bind, raise.
  destruct (ytdlp_importable env); cbn [negb]; [|reflexivity].
  destruct (fault env tr (Mkdir _)); [reflexivity|].
  destruct (ytdlp_extract env _ url _) as [msg|name|e];
    [reflexivity| |reflexivity].
  destruct (fault env _ (Exists name)); [reflexivity|].
  destruct (path_exists env _ name); cbn [negb]; [|reflexivity].
  destruct (fault env _ (Replace name destination)); reflexivity.
Qed.



(** C4, as the code has it.  For a reference that can be looked up and
    names no existing path, the downloader is chosen exactly when some
    listed domain occurs somewhere in the lower-cased reference, host or
    not; otherwise the generic stream copy is chosen.  The downloader
    starts no child process, the stream copy starts exactly one.  A
    reference whose host is a listed domain or one of its subdomains
    always goes to the downloader. *)
Theorem streaming_route_by_substring env url destination tr :
  fault env tr (Expanduser url) = None ->
  fault env tr (Exists (expanduser env url)) = None ->
  path_exists env tr (expanduser env url) = false ->
  (_prepare_remote_clip env url destination tr
     = _download_with_ytdlp env url destination tr
   /\ commands (fun _ => true)
               (skipn (length tr)
                      (snd (_prepare_remote_clip env url destination tr)))
        = []
   <-> exists domain before after,
         In domain STREAMING_DOMAINS
         /\ PyStr.lower url = before ++ domain ++ after)
  /\ (_prepare_remote_clip env url destination tr
        = _download_remote_clip env url destination tr
      /\ commands (fun _ => true)
                  (skipn (length tr)
                         (snd (_prepare_remote_clip env url destination tr)))
           = [fetch_args url destination]
      <-> ~ exists domain before after,
              In domain STREAMING_DOMAINS
              /\ PyStr.lower url = before ++ domain ++ after)
  /\ (spec_host_is_streaming url = true ->
      _prepare_remote_clip env url destination tr
        = _download_with_ytdlp env url destination tr).
Proof.
  intros F1 F2 Hex. rewrite prepare_cases, F1, F2, Hex.
  rewrite <- is_streaming_url_spec.
  assert (Hyt : commands (fun _ => true)
                  (skipn (length tr)
                     (snd (_download_with_ytdlp env url destination tr))) = []).
  { destruct (_download_with_ytdlp env url destination tr) as [r tr'] eqn:E.
    destruct (@download_with_ytdlp_own_effects env url destination _ _ _ E)
      as (new & -> & Hnew).
    cbn [snd]. rewrite skipn_app, skipn_all, Nat.sub_diag. cbn [app skipn].
    clear E. induction Hnew as [|e new [He _] _ IH]; [reflexivity|].
    destruct e; try discriminate; exact IH. }
  assert (Hfetch : commands (fun _ => true)
                     (skipn (length tr)
                        (snd (_download_remote_clip env url destination tr)))
                   = [fetch_args url destination]).
  { unfold _download_remote_clip, subprocess_run, bind, ret.
    destruct (run env tr _); cbn [snd];
      rewrite skipn_app, skipn_all, Nat.sub_diag; reflexivity. }
  split; [|split].
  - destruct (_is_streaming_url url) eqn:S.
    + split; [reflexivity|]. intros _. split; [reflexivity|exact Hyt].
    + split; [|discriminate]. intros [_ H]. rewrite Hfetch in H. discriminate.
  - destruct (_is_streaming_url url) eqn:S.
    + split; [|intro H; now destruct H].
      intros [_ H]. rewrite Hyt in H. discriminate.
    + split; [intros _; discriminate|]. intros _. split; [reflexivity|exact Hfetch].
  - intro Hs. now rewrite (host_match_is_streaming _ Hs).
Qed.
(* ================================================================= *)
(** ** Probing (C5, C9) *)

Lemma lstrip_nonblank s : nonblank (PyStr.lstrip s) = nonblank s.
Proof.
  induction s as [|c s IH]; [reflexivity|]. cbn [PyStr.lstrip].
  destruct (PyStr.isspace c) eqn:E; [|reflexivity].
  cbn [nonblank]. now rewrite E, IH.
Qed.

Lemma rstrip_truthy s : PyStr.truthy (PyStr.rstrip s) = nonblank s.
Proof.
  induction s as [|c s IH]; [reflexivity|]. cbn [PyStr.rstrip nonblank].
  destruct (PyStr.rstrip s); cbn [PyStr.truthy] in *; rewrite <- IH.
  - rewrite orb_false_r. now destruct (PyStr.isspace c).
  - now rewrite orb_true_r.
Qed.

(** What is left after [strip()] is non-empty exactly when the string has
    a character that is not white space. *)
Lemma strip_truthy s : PyStr.truthy (PyStr.strip s) = nonblank s.
Proof.
  unfold PyStr.strip. now rewrite rstrip_truthy, lstrip_nonblank.
Qed.

Lemma nonblank_spec s :
  nonblank s = true
  <-> exists before c after,
        s = before ++ String c after /\ PyStr.isspace c = false.
Proof.
  induction s as [|c s IH]; cbn [nonblank].
  - split; [discriminate|]. intros ([|? ?] & c & after & H & _); discriminate.
  - rewrite orb_true_iff, negb_true_iff, IH. split.
    + intros [H|(before & c' & after & -> & H)].
      * now exists "", c, s.
      * now exists (String c before), c', after.
    + intros ([|c0 before] & c' & after & H & Hc); cbn in H; inversion H; subst.
      * now left.
      * right. now exists before, c', after.
Qed.

Lemma nonblank_app a b : nonblank a = true -> nonblank (a ++ b) = true.
Proof.
  induction a as [|c a IH]; [discriminate|]. cbn.
  destruct (PyStr.isspace c); cbn; auto.
Qed.

(** C9, as the code has it.  When [ffprobe] completes, the audio probe
    reports audio exactly when its output has a character that is not
    white space; empty output is reported as no audio, and further output
    after a first stream index does not change the verdict. *)
Theorem has_audio_iff_nonblank env video_path tr stdout :
  run env tr (audio_probe_args video_path) = Completed stdout ->
  _has_audio_stream env video_path tr =
    (Ok (nonblank stdout),
     (tr ++ [EvRun (audio_probe_args video_path) (Completed stdout)])%list)
  /\ (nonblank stdout = true
      <-> exists before c after,
            stdout = before ++ String c after /\ PyStr.isspace c = false)
  /\ (stdout = "" -> nonblank stdout = false)
  /\ (forall more, nonblank stdout = true -> nonblank (stdout ++ more) = true).
Proof.
  intro G. split; [|split; [apply nonblank_spec|split]].
  - unfold _has_audio_stream, try_except, subprocess_run, bind, ret.
    rewrite G. now rewrite strip_truthy.
  - now intros ->.
  - intros more. apply nonblank_app.
Qed.

Lemma probe_dimensions_completed env video_path tr stdout :
  run env tr (dims_probe_args video_path) = Completed stdout ->
  _probe_video_dimensions env video_path tr =
    (read_dimensions video_path stdout,
     (tr ++ [EvRun (dims_probe_args video_path) (Completed stdout)])%list).
Proof.
  intro G.
  unfold _probe_video_dimensions, try_except, subprocess_run, bind, lift.
  now rewrite G.
Qed.

(** C5, as the code has it.  When [ffprobe] completes, the dimensions
    probe raises [RuntimeError] if fewer than two lines of the output
    survive stripping, and it returns a pair exactly when at least two
    survive and the first two read as integers; the pair is made of
    these two, and further lines are ignored. *)
Theorem probe_dimensions_at_least_two_lines env video_path tr stdout :
  run env tr (dims_probe_args video_path) = Completed stdout ->
  (length (stripped_lines stdout) < 2 ->
   fst (_probe_video_dimensions env video_path tr) =
     Raise (RuntimeError
              ("Unable to determine dimensions for " ++ video_path)))
  /\ (forall w h,
         fst (_probe_video_dimensions env video_path tr) = Ok (w, h)
         <-> 2 <= length (stripped_lines stdout)
             /\ PyStr.int (nth 0 (stripped_lines stdout) "") = Some w
             /\ PyStr.int (nth 1 (stripped_lines stdout) "") = Some h).
Proof.
  intro G. rewrite (probe_dimensions_completed _ _ _ G). cbn [fst].
  unfold read_dimensions, int_. split.
  - intro Hlt. apply Nat.ltb_lt in Hlt. now rewrite Hlt.
  - intros w h.
    destruct (length (stripped_lines stdout) <? 2)%nat eqn:L.
    + apply Nat.ltb_lt in L. split; [discriminate|]. intros [H _]. lia.
    + apply Nat.ltb_ge in L.
      destruct (PyStr.int (nth 0 (stripped_lines stdout) "")) as [w'|];
        [|split; [discriminate|intros (_ & H & _); discriminate]].
      destruct (PyStr.int (nth 1 (stripped_lines stdout) "")) as [h'|];
        [|split; [discriminate|intros (_ & _ & H); discriminate]].
      split.
      * intro H; inversion H; subst. auto.
      * intros (_ & Hw & Hh). congruence.
Qed.

(* ================================================================= *)
(** ** Rescaling *)

Lemma split_from_clean sep cur a b :
  free_of sep a = true ->
  split_from sep cur (a ++ b) = split_from sep (cur ++ a) b.
Proof.
  revert cur; induction a as [|c a IH]; intros cur H; cbn.
  - replace (cur ++ "") with cur; [reflexivity|].
    induction cur; cbn; congruence.
  - cbn in H. apply andb_true_iff in H. destruct H as [Hc Ha].
    apply negb_true_iff in Hc. rewrite Hc, IH by exact Ha.
    now rewrite append_assoc3.
Qed.

Lemma digits_free_of sep d :
  PyStr.isdigit sep = false ->
  free_of sep (NilEmpty.string_of_uint d) = true.
Proof.
  intro Hsep. induction d; cbn [NilEmpty.string_of_uint free_of];
    [reflexivity| | | | | | | | | |];
    rewrite IHd, andb_true_r; apply negb_true_iff;
    match goal with
    | |- Ascii.eqb ?c sep = false =>
        destruct (Ascii.eqb_spec c sep) as [<-|]; [discriminate|reflexivity]
    end.
Qed.

Lemma uint_free_of sep d :
  PyStr.isdigit sep = false ->
  free_of sep (NilZero.string_of_uint d) = true.
Proof.
  intro Hsep. destruct d; try (now apply digits_free_of).
  cbn [NilZero.string_of_uint free_of]. rewrite andb_true_r.
  apply negb_true_iff.
  destruct (Ascii.eqb_spec "0"%char sep) as [<-|]; [discriminate|reflexivity].
Qed.

(** The decimal form of an integer holds digits and at most a sign. *)
Lemma of_int_free_of sep n :
  PyStr.isdigit sep = false -> sep <> "-"%char ->
  free_of sep (PyStr.of_int n) = true.
Proof.
  intros Hd Hm. unfold PyStr.of_int, NilZero.string_of_int.
  destruct (Z.to_int n); [now apply uint_free_of|].
  cbn [free_of]. rewrite uint_free_of by exact Hd.
  rewrite andb_true_r. apply negb_true_iff.
  destruct (Ascii.eqb_spec "-"%char sep); congruence.
Qed.

(** What the program contributes to the rescaling is one command line:
    [_scale_video_to_target] starts exactly one [ffmpeg] command on the
    source; its video filter is a chain of two filters, [scale] and [pad],
    with the target size written in decimal in both; the video codec is
    [libx264], the audio codec is [copy], and the destination comes last.
    What [ffmpeg] makes of the frames is not the program's. *)
Lemma scale_command_shape env source width height destination tr :
  let args := scale_args source (width, height) destination in
  snd (_scale_video_to_target env source (width, height) destination tr)
    = (tr ++ [EvRun args (run env tr args)])%list
  /\ (nth 2 args "" = "-i" /\ nth 3 args "" = source)
  /\ nth 4 args "" = "-vf"
  /\ map (split_on ":") (split_on "," (nth 5 args "")) =
       [ ["scale=" ++ PyStr.of_int width; PyStr.of_int height;
          "force_original_aspect_ratio=decrease"];
         ["pad=" ++ PyStr.of_int width; PyStr.of_int height;
          "(ow-iw)/2"; "(oh-ih)/2"] ]
  /\ (nth 6 args "" = "-c:v" /\ nth 7 args "" = "libx264")
  /\ (nth 12 args "" = "-c:a" /\ nth 13 args "" = "copy")
  /\ last args "" = destination.
Proof.
  cbv zeta. split; [|repeat split].
  - unfold _scale_video_to_target, subprocess_run, bind, ret.
    now destruct (run env tr _).
  - cbn [scale_args nth scale_filter].
    assert (Wc : free_of "," (PyStr.of_int width) = true)
      by (apply of_int_free_of; [reflexivity|discriminate]).
    assert (Hc : free_of "," (PyStr.of_int height) = true)
      by (apply of_int_free_of; [reflexivity|discriminate]).
    assert (Wk : free_of ":" (PyStr.of_int width) = true)
      by (apply of_int_free_of; [reflexivity|discriminate]).
    assert (Hk : free_of ":" (PyStr.of_int height) = true)
      by (apply of_int_free_of; [reflexivity|discriminate]).
    unfold split_on.
    repeat (cbn [split_from append Ascii.eqb Bool.eqb];
            rewrite ?(split_from_clean _ _ _ _ Wc),
                    ?(split_from_clean _ _ _ _ Hc)).
    rewrite !append_assoc3. cbn [map append].
    repeat (cbn [split_from append Ascii.eqb Bool.eqb];
            rewrite ?(split_from_clean _ _ _ _ Wk),
                    ?(split_from_clean _ _ _ _ Hk)).
    rewrite ?append_assoc3. reflexivity.
Qed.

(* ================================================================= *)
(** ** Reconciling and concatenating (C1, C2) *)

Lemma concat_args_cons lp rp op ia :
  concat_args lp rp op ia =
    "ffmpeg" :: "-y" :: "-i" :: lp :: "-i" :: rp
      :: "-filter_complex" :: concat_filter ia
      :: "-map" :: "[v]"
      :: "-c:v" :: "libx264" :: "-preset" :: "fast" :: "-pix_fmt" :: "yuv420p"
      :: ((if ia
           then ["-map"; "[a]"; "-c:a"; "aac"; "-b:a"; "192k"; "-ar"; "44100"]
           else []) ++ [op])%list.
Proof. destruct ia; reflexivity. Qed.

Lemma size_eqb_eq a b : size_eqb a b = true <-> a = b.
Proof.
  destruct a as [w h], b as [w' h']. unfold size_eqb. cbn [fst snd].
  rewrite andb_true_iff, !Z.eqb_eq. split; [intros [-> ->]|intro H; inversion H]; auto.
Qed.

(** Every way a call can go, as goals about its result and its trace. *)
Ltac every_run H :=
  revert H; run_program;
  intro H; inversion H; subst; clear H;
  repeat match goal with
         | E : run _ _ _ = _ |- _ => clear E
         | E : path_exists _ _ _ = _ |- _ => clear E
         | E : negb (path_exists _ _ _) = _ |- _ => clear E
         | E : copy2 _ _ _ _ = _ |- _ => clear E
         | E : fault _ _ _ = _ |- _ => clear E
         | E : ytdlp_extract _ _ _ _ = _ |- _ => clear E
         end;
  rewrite ?concat_args_cons in *.

(** C2.  In every call in which both dimension probes returned a size,
    the rescale command is started exactly when the two sizes differ as
    pairs of integers.  When they are equal no rescale command is started
    and the clip probed for audio and concatenated is the acquired
    [remote.mp4]; when they differ exactly one rescale command is started,
    from [remote.mp4] to [remote_scaled.mp4] with the local size as target,
    and the rescaled clip is the one used afterwards. *)
Theorem rescale_iff_dimensions_differ env l r o res tr local_size remote_size :
  merge_local_with_remote env l r o [] = (res, tr) ->
  probed_sizes tr = [Ok local_size; Ok remote_size] ->
  exists d,
    In (EvMkdtemp d) tr
    /\ (commands is_scale tr <> [] <-> local_size <> remote_size)
    /\ (local_size = remote_size ->
        commands is_scale tr = []
        /\ (forall p v, In (p, v) (probed_audio tr) ->
                        p = resolve env (expanduser env l)
                        \/ p = path_join d "remote.mp4")
        /\ (forall args, In args (commands is_concat tr) ->
                         nth 5 args "" = path_join d "remote.mp4"))
    /\ (local_size <> remote_size ->
        commands is_scale tr =
          [scale_args (path_join d "remote.mp4") local_size
                      (path_join d "remote_scaled.mp4")]
        /\ (forall p v, In (p, v) (probed_audio tr) ->
                        p = resolve env (expanduser env l)
                        \/ p = path_join d "remote_scaled.mp4")
        /\ (forall args, In args (commands is_concat tr) ->
                         nth 5 args "" = path_join d "remote_scaled.mp4")).
Proof.
  intros H Hs. every_run H.
  all: cbn in Hs; try discriminate.
  all: repeat match goal with
              | E : read_dimensions _ _ = _ |- _ => rewrite E in Hs; clear E
              end.
  all: inversion Hs; subst; clear Hs.
  all: match goal with
       | E : negb (size_eqb _ _) = true |- _ =>
           apply negb_true_iff in E;
           assert (Hne : local_size <> remote_size)
             by (intro Heq; apply size_eqb_eq in Heq; congruence)
       | E : negb (size_eqb _ _) = false |- _ =>
           apply negb_false_iff, size_eqb_eq in E
       end.
  all: eexists; split; [do 2 right; left; reflexivity|].
  all: cbn; repeat split; intros; try tauto; try discriminate; try congruence.
  all: repeat match goal with
              | Hin : _ \/ _ |- _ => destruct Hin
              | Hin : False |- _ => destruct Hin
              | Hin : (_, _) = (_, _) |- _ => inversion Hin; clear Hin; subst
              end; subst; auto.
Qed.

(** C1.  In every call, a concatenation command is started only after both
    audio probes completed, the first on the local clip and the second on
    the remote clip as it will be concatenated (rescaled or not); the flag
    it is built with is the conjunction of the two verdicts; with the flag
    set its filter graph joins video and audio and an audio output is
    mapped, otherwise the graph joins video only and nothing else is
    mapped.  Conversely two completed audio probes are followed by that
    command, and a call that returns has started it. *)
Theorem concat_audio_iff_both_have_audio env l r o res tr :
  merge_local_with_remote env l r o [] = (res, tr) ->
  (forall args,
      In args (commands is_concat tr) ->
      exists remote_path local_has_audio remote_has_audio,
        probed_audio tr =
          [(resolve env (expanduser env l), local_has_audio);
           (remote_path, remote_has_audio)]
        /\ args = concat_args (resolve env (expanduser env l)) remote_path
                              (resolve env (expanduser env o))
                              (local_has_audio && remote_has_audio)
        /\ (local_has_audio && remote_has_audio = true ->
            nth 7 args "" = "[0:v][0:a][1:v][1:a]concat=n=2:v=1:a=1[v][a]"
            /\ nth 16 args "" = "-map" /\ nth 17 args "" = "[a]")
        /\ (local_has_audio && remote_has_audio = false ->
            nth 7 args "" = "[0:v][1:v]concat=n=2:v=1:a=0[v]"
            /\ length args = 17))
  /\ (forall p1 v1 p2 v2,
         probed_audio tr = [(p1, v1); (p2, v2)] ->
         commands is_concat tr =
           [concat_args p1 p2 (resolve env (expanduser env o)) (v1 && v2)])
  /\ (forall p, res = Ok p -> exists args, commands is_concat tr = [args]).
Proof.
  intro H. every_run H.
  all: cbn [commands probed_audio flat_map app is_concat is_audio_probe
            command_is hd nth last version_args dims_probe_args
            audio_probe_args scale_args fetch_args String.eqb Ascii.eqb
            Bool.eqb andb In].
  all: split; [|split]; intros; try contradiction; try discriminate.
  all: repeat match goal with
              | Hin : _ \/ False |- _ => destruct Hin as [Hin|[]]
              | Hin : [_; _] = [_; _] |- _ => inversion Hin; clear Hin; subst
              end; subst.
  all: rewrite ?concat_args_cons.
  all: try (eexists; reflexivity).
  all: try reflexivity.
  all: do 3 eexists; split; [reflexivity|].
  all: rewrite concat_args_cons; split; [reflexivity|].
  all: split; intros ->; cbn; auto.
Qed.

(* ================================================================= *)
(** ** The theorems at work in concrete worlds *)


Lemma tmpdir_removed_on_every_path_witness :
  In (EvMkdtemp Scenario.tmp) (snd Scenario.youtube_run)
  /\ live_tmpdirs [] (snd Scenario.youtube_run) = []
  /\ ~ In Scenario.working_remote (leftovers [] (snd Scenario.youtube_run))
  /\ In (EvMkdtemp Scenario.tmp)
        (snd (merge_local_with_remote Scenario.dead_link
                "intro.mp4" "https://example.org/a.mp4" "out.mp4" []))
  /\ live_tmpdirs []
        (snd (merge_local_with_remote Scenario.dead_link
                "intro.mp4" "https://example.org/a.mp4" "out.mp4" [])) = [].
Proof.
  assert (Hin : In (EvMkdtemp Scenario.tmp) (snd Scenario.youtube_run))
    by (do 2 right; left; reflexivity).
  assert (Hin' : In (EvMkdtemp Scenario.tmp)
                    (snd (merge_local_with_remote Scenario.dead_link
                            "intro.mp4" "https://example.org/a.mp4"
                            "out.mp4" [])))
    by (do 2 right; left; reflexivity).
  destruct (@tmpdir_removed_on_every_path Scenario.youtube
              "intro.mp4" "https://youtu.be/XXXX" "~/out/merged.mp4"
              (fst Scenario.youtube_run) (snd Scenario.youtube_run)
              Scenario.tmp eq_refl Hin)
    as (_ & Hlive & _ & Hremote & _).
  destruct (@tmpdir_removed_on_every_path Scenario.dead_link
              "intro.mp4" "https://example.org/a.mp4" "out.mp4"
              _ _ Scenario.tmp eq_refl Hin')
    as (_ & Hlive' & _).
  repeat split; assumption.
Defined.

Lemma output_parent_created_before_remote_witness :
  path_exists Scenario.youtube [] "/work/intro.mp4" = true
  /\ run Scenario.youtube [] version_args = Completed ""
  /\ fst Scenario.youtube_run = Ok "/home/ana/out/merged.mp4"
  /\ (forall x, In (EvRmtree x) (snd Scenario.youtube_run) -> x = Scenario.tmp)
  /\ In "/home/ana/out" (leftovers [] (snd Scenario.youtube_run))
  /\ exists fetched rest,
       snd Scenario.youtube_run =
         ((Scenario.at_prepare "/home/ana/out" ++ fetched) ++ rest)%list.
Proof.
  destruct (@output_parent_created_before_remote Scenario.youtube
              "intro.mp4" "https://youtu.be/XXXX" "~/out/merged.mp4"
              "" (fst Scenario.youtube_run) (snd Scenario.youtube_run)
              eq_refl eq_refl eq_refl eq_refl eq_refl
              eq_refl eq_refl eq_refl eq_refl eq_refl)
    as ((r1 & t1 & rest & _ & (fetched & Hf) & Ht) & Hrm & Hstays & Hret).
  split; [reflexivity|split; [reflexivity|split; [|split; [|split]]]].
  - reflexivity.
  - exact Hrm.
  - apply Hstays; [reflexivity|].
    intros target Hin. vm_compute in Hin.
    repeat match goal with
           | H : _ \/ _ |- _ => destruct H
           | H : False |- _ => destruct H
           end; discriminate.
  - exists fetched, rest. rewrite Ht, Hf. reflexivity.
Defined.

Lemma concat_audio_iff_both_have_audio_witness :
  commands is_concat (snd Scenario.youtube_run) =
    [concat_args "/work/intro.mp4" "/tmp/tmpk3v9x/remote_scaled.mp4"
                 "/home/ana/out/merged.mp4" (true && true)]
  /\ commands is_concat (snd Scenario.same_size_run) =
       [concat_args "/work/intro.mp4" "/tmp/tmpk3v9x/remote.mp4"
                    "/work/out.mp4" (true && false)].
Proof.
  split.
  - destruct (@concat_audio_iff_both_have_audio Scenario.youtube
                "intro.mp4" "https://youtu.be/XXXX" "~/out/merged.mp4"
                (fst Scenario.youtube_run) (snd Scenario.youtube_run) eq_refl)
      as (_ & H & _).
    exact (H "/work/intro.mp4" true "/tmp/tmpk3v9x/remote_scaled.mp4" true
             eq_refl).
  - destruct (@concat_audio_iff_both_have_audio Scenario.same_size
                "intro.mp4" "/work/outro.mp4" "out.mp4"
                (fst Scenario.same_size_run) (snd Scenario.same_size_run)
                eq_refl)
      as (_ & H & _).
    exact (H "/work/intro.mp4" true "/tmp/tmpk3v9x/remote.mp4" false eq_refl).
Defined.

Lemma rescale_iff_dimensions_differ_witness :
  (probed_sizes (snd Scenario.youtube_run)
     = [Ok (1280, 720)%Z; Ok (1920, 1080)%Z]
   /\ commands is_scale (snd Scenario.youtube_run) <> [])
  /\ (probed_sizes (snd Scenario.same_size_run)
        = [Ok (1280, 720)%Z; Ok (1280, 720)%Z]
      /\ commands is_scale (snd Scenario.same_size_run) = []).
Proof.
  split; split; try reflexivity.
  - destruct (@rescale_iff_dimensions_differ Scenario.youtube
                "intro.mp4" "https://youtu.be/XXXX" "~/out/merged.mp4"
                (fst Scenario.youtube_run) (snd Scenario.youtube_run)
                (1280, 720)%Z (1920, 1080)%Z eq_refl eq_refl)
      as (d & _ & Hiff & _).
    apply Hiff. discriminate.
Defined.

Lemma streaming_route_by_substring_witness :
  path_exists Scenario.youtube (Scenario.at_prepare "/work")
    Scenario.mirror_link = false
  /\ _prepare_remote_clip Scenario.youtube Scenario.mirror_link
       Scenario.working_remote (Scenario.at_prepare "/work")
     = _download_with_ytdlp Scenario.youtube Scenario.mirror_link
         Scenario.working_remote (Scenario.at_prepare "/work").
Proof.
  split; [reflexivity|].
  destruct (@streaming_route_by_substring Scenario.youtube
              Scenario.mirror_link Scenario.working_remote
              (Scenario.at_prepare "/work") eq_refl eq_refl eq_refl)
    as (H & _).
  apply H.
  exists "vimeo.com", "https://cdn.example.org/", "/clip.mp4".
  split; [|reflexivity]. do 5 right; left; reflexivity.
Defined.

Lemma probe_dimensions_at_least_two_lines_witness :
  run Scenario.doubled [] (dims_probe_args Scenario.local_clip)
    = Completed (Scenario.hd720 ++ Scenario.hd720)
  /\ fst (_probe_video_dimensions Scenario.doubled Scenario.local_clip [])
     = Ok (1280, 720)%Z.
Proof.
  split; [reflexivity|].
  apply (proj2 (@probe_dimensions_at_least_two_lines Scenario.doubled
                  Scenario.local_clip []
                  (Scenario.hd720 ++ Scenario.hd720) eq_refl)).
  split; [apply Nat.leb_le; reflexivity|split; reflexivity].
Defined.

Lemma has_audio_iff_nonblank_witness :
  run Scenario.youtube [] (audio_probe_args Scenario.local_clip)
    = Completed Scenario.one_track
  /\ fst (_has_audio_stream Scenario.youtube Scenario.local_clip [])
     = Ok true.
Proof.
  split; [reflexivity|].
  destruct (@has_audio_iff_nonblank Scenario.youtube Scenario.local_clip []
              Scenario.one_track eq_refl) as (H & _).
  rewrite H. reflexivity.
Defined.

(* ================================================================= *)
(** ** Where the wording of the spec and the code part *)



(** C4 as stated fails: the host [cdn.example.org] is on no listed domain,
    yet the reference goes to the downloader and not to the stream copy,
    because its path mentions [vimeo.com]. *)
Lemma streaming_route_ignores_host :
  url_host Scenario.mirror_link = "cdn.example.org"
  /\ path_exists Scenario.youtube (Scenario.at_prepare "/work")
       (expanduser Scenario.youtube Scenario.mirror_link) = false
  /\ ~ (_prepare_remote_clip Scenario.youtube Scenario.mirror_link
          Scenario.working_remote (Scenario.at_prepare "/work")
        = _download_with_ytdlp Scenario.youtube Scenario.mirror_link
            Scenario.working_remote (Scenario.at_prepare "/work")
        <-> spec_host_is_streaming Scenario.mirror_link = true)
  /\ existsb is_ytdlp
       (snd (_prepare_remote_clip Scenario.youtube Scenario.mirror_link
               Scenario.working_remote (Scenario.at_prepare "/work")))
     = true
  /\ commands is_fetch
       (snd (_prepare_remote_clip Scenario.youtube Scenario.mirror_link
               Scenario.working_remote (Scenario.at_prepare "/work")))
     = [].
Proof.
  split; [reflexivity|split; [reflexivity|split; [|split; reflexivity]]].
  intros [H _]. specialize (H eq_refl). discriminate H.
Qed.

(** C5 as stated fails: with the dimensions listed twice the output has
    four non-empty lines, not two, and the probe still returns a pair. *)
Lemma probe_dimensions_accepts_extra_lines :
  run Scenario.doubled [] (dims_probe_args Scenario.local_clip)
    = Completed (Scenario.hd720 ++ Scenario.hd720)
  /\ length (stripped_lines (Scenario.hd720 ++ Scenario.hd720)) = 4
  /\ _probe_video_dimensions Scenario.doubled Scenario.local_clip []
     = (Ok (1280, 720)%Z,
        [EvRun (dims_probe_args Scenario.local_clip)
               (Completed (Scenario.hd720 ++ Scenario.hd720))])
  /\ ~ ((exists size,
            fst (_probe_video_dimensions Scenario.doubled
                   Scenario.local_clip []) = Ok size)
        <-> length (stripped_lines (Scenario.hd720 ++ Scenario.hd720)) = 2).
Proof.
  split; [reflexivity|split; [reflexivity|split; [reflexivity|]]].
  intros [H _]. assert (E : 4 = 2); [|discriminate E].
  apply H. now exists (1280, 720)%Z.
Qed.

(** C9 as stated fails: an output made of one line break is not empty,
    and the probe reports no audio. *)
Lemma has_audio_blank_output :
  run Scenario.blank_audio [] (audio_probe_args Scenario.local_clip)
    = Completed Scenario.nl
  /\ Scenario.nl <> ""
  /\ _has_audio_stream Scenario.blank_audio Scenario.local_clip []
     = (Ok false,
        [EvRun (audio_probe_args Scenario.local_clip)
               (Completed Scenario.nl)])
  /\ ~ (fst (_has_audio_stream Scenario.blank_audio Scenario.local_clip [])
          = Ok true
        <-> Scenario.nl <> "").
Proof.
  split; [reflexivity|split; [discriminate|split; [reflexivity|]]].
  intros [_ H]. assert (E : @Ok bool false = Ok true); [|discriminate E].
  apply H. discriminate.
Qed.

(* ================================================================= *)
(** ** More on probing *)

Lemma read_dimensions_raises video_path stdout e :
  read_dimensions video_path stdout = Raise e ->
  (length (stripped_lines stdout) < 2
   /\ e = RuntimeError ("Unable to determine dimensions for " ++ video_path))
  \/ (2 <= length (stripped_lines stdout)
      /\ exists s,
          e = ValueError (PyStr.int_error s) /\ PyStr.int s = None
          /\ (s = nth 0 (stripped_lines stdout) ""
              \/ (s = nth 1 (stripped_lines stdout) ""
                  /\ PyStr.int (nth 0 (stripped_lines stdout) "") <> None))).
Proof.
  unfold read_dimensions, int_.
  destruct (length (stripped_lines stdout) <? 2)%nat eqn:L.
  - apply Nat.ltb_lt in L. intro H; inversion H. now left.
  - apply Nat.ltb_ge in L. right. split; [exact L|].
    destruct (PyStr.int (nth 0 (stripped_lines stdout) "")) eqn:E0.
    + destruct (PyStr.int (nth 1 (stripped_lines stdout) "")) eqn:E1;
        [discriminate|].
      inversion H; subst. eexists; split; [reflexivity|split; [exact E1|]].
      right. split; [reflexivity|congruence].
    + inversion H; subst. eexists; split; [reflexivity|split; [exact E0|]].
      now left.
Qed.

(** *** Reading back what [ffprobe] prints *)

Lemma plain_facts c :
  plain c = true ->
  PyStr.isspace c = false /\ PyStr.islinebreak c = false
  /\ (PyStr.code c =? 13)%nat = false.
Proof.
  destruct c as [[] [] [] [] [] [] [] []]; cbn; intro H;
    try discriminate H; auto.
Qed.

Lemma plain_int_facts c : plain c = true -> PyStr.int_isspace c = false.
Proof.
  destruct c as [[] [] [] [] [] [] [] []]; cbn; intro H;
    try discriminate H; auto.
Qed.

Lemma digits_plain d : all_chars plain (NilEmpty.string_of_uint d) = true.
Proof. induction d; cbn; auto. Qed.

Lemma of_int_plain n : all_chars plain (PyStr.of_int n) = true.
Proof.
  unfold PyStr.of_int, NilZero.string_of_int, NilZero.string_of_uint.
  destruct (Z.to_int n) as [d|d]; destruct d;
    cbn [all_chars]; rewrite ?digits_plain; try reflexivity;
    exact (digits_plain _).
Qed.

Lemma of_int_truthy n : PyStr.truthy (PyStr.of_int n) = true.
Proof.
  unfold PyStr.of_int, NilZero.string_of_int, NilZero.string_of_uint.
  destruct (Z.to_int n) as [d|d]; destruct d; reflexivity.
Qed.

Lemma lstrip_plain s : all_chars plain s = true -> PyStr.lstrip s = s.
Proof.
  destruct s as [|c s]; [reflexivity|]. cbn. intro H.
  apply andb_true_iff in H. destruct H as [H _].
  now destruct (plain_facts _ H) as (-> & _).
Qed.

Lemma rstrip_plain s : all_chars plain s = true -> PyStr.rstrip s = s.
Proof.
  induction s as [|c s IH]; [reflexivity|]. cbn. intro H.
  apply andb_true_iff in H. destruct H as [Hc Hs].
  rewrite (IH Hs). destruct (plain_facts _ Hc) as (-> & _).
  now destruct s.
Qed.

Lemma strip_plain s : all_chars plain s = true -> PyStr.strip s = s.
Proof.
  intro H. unfold PyStr.strip. now rewrite lstrip_plain, rstrip_plain.
Qed.

Lemma int_lstrip_plain s : all_chars plain s = true -> PyStr.int_lstrip s = s.
Proof.
  destruct s as [|c s]; [reflexivity|]. cbn. intro H.
  apply andb_true_iff in H. destruct H as [H _].
  now rewrite (plain_int_facts _ H).
Qed.

Lemma int_rstrip_plain s : all_chars plain s = true -> PyStr.int_rstrip s = s.
Proof.
  induction s as [|c s IH]; [reflexivity|]. cbn. intro H.
  apply andb_true_iff in H. destruct H as [Hc Hs].
  rewrite (IH Hs), (plain_int_facts _ Hc).
  now destruct s.
Qed.

Lemma int_strip_plain s :
  all_chars plain s = true -> PyStr.int_rstrip (PyStr.int_lstrip s) = s.
Proof.
  intro H. now rewrite int_lstrip_plain, int_rstrip_plain.
Qed.

(** A string of digits has as many digits as characters. *)
Lemma digit_count_uint d :
  PyStr.digit_count (NilEmpty.string_of_uint d)
  = String.length (NilEmpty.string_of_uint d).
Proof.
  induction d; cbn [NilEmpty.string_of_uint String.length];
    [reflexivity| | | | | | | | | |];
    (replace (PyStr.digit_count (String _ (NilEmpty.string_of_uint d)))
       with (S (PyStr.digit_count (NilEmpty.string_of_uint d)))
       by reflexivity);
    congruence.
Qed.

Lemma splitlines_from_plain cur a rest :
  all_chars plain a = true ->
  PyStr.splitlines_from cur (a ++ rest) = PyStr.splitlines_from (cur ++ a) rest.
Proof.
  revert cur; induction a as [|c a IH]; intros cur H; cbn [append].
  - replace (cur ++ "") with cur; [reflexivity|].
    induction cur; cbn; congruence.
  - cbn in H. apply andb_true_iff in H. destruct H as [Hc Ha].
    destruct (plain_facts _ Hc) as (_ & Hb & Hr).
    cbn [PyStr.splitlines_from]. rewrite Hr, Hb, (IH _ Ha).
    now rewrite append_assoc3.
Qed.

Lemma digits_step c acc b s :
  PyStr.isdigit c = true ->
  PyStr.digits acc b (String c s) =
    PyStr.digits (10 * acc + Z.of_nat (PyStr.code c - 48)) true s.
Proof. intro H. cbn [PyStr.digits]. now rewrite H. Qed.

Lemma digits_acc l acc :
  PyStr.digits (Zpos acc) true (NilEmpty.string_of_uint l) =
    Some (Zpos (Pos.of_uint_acc l acc)).
Proof.
  revert acc; induction l; intro acc;
    cbn [NilEmpty.string_of_uint Pos.of_uint_acc]; [reflexivity| | | | | | | | | |];
    rewrite digits_step by reflexivity; rewrite <- IHl; f_equal;
    match goal with
    | |- context [Z.of_nat ?n] =>
        let v := eval vm_compute in (Z.of_nat n) in
        change (Z.of_nat n) with v
    end; lia.
Qed.

Lemma digits_of_uint b d :
  d <> Decimal.Nil ->
  PyStr.digits 0 b (NilEmpty.string_of_uint d) =
    Some (Z.of_N (Pos.of_uint d)).
Proof.
  intro Hd. assert (Hgen : forall d,
    PyStr.digits 0 true (NilEmpty.string_of_uint d)
      = Some (Z.of_N (Pos.of_uint d))).
  { clear. induction d; cbn [NilEmpty.string_of_uint Pos.of_uint];
      [reflexivity| | | | | | | | | |];
      rewrite digits_step by reflexivity;
      [exact IHd| | | | | | | | |]; exact (digits_acc _ _). }
  destruct d; [congruence| | | | | | | | | |];
    rewrite <- Hgen; cbn [NilEmpty.string_of_uint];
    rewrite !digits_step by reflexivity; reflexivity.
Qed.

(** What [int] counts in [str(n)] are the digits of [n]. *)
Lemma digit_count_of_int n :
  PyStr.digit_count (PyStr.unsigned (PyStr.of_int n)) = decimal_digits n.
Proof.
  unfold PyStr.unsigned, decimal_digits.
  rewrite int_strip_plain by apply of_int_plain.
  unfold PyStr.of_int, NilZero.string_of_int, NilZero.string_of_uint.
  destruct n as [|p|p]; [reflexivity| |]; cbn [Z.to_int Z.abs];
    pose proof (DecimalPos.Unsigned.to_uint_nonnil p) as Hn;
    destruct (Pos.to_uint p) eqn:E; try congruence;
    cbv beta iota; rewrite <- E;
    try (rewrite E; exact (digit_count_uint _));
    rewrite <- digit_count_uint; rewrite E; reflexivity.
Qed.

(** [int(str(n))] is [n], up to the limit on the digits. *)
Lemma int_of_int n :
  (decimal_digits n <= PyStr.max_str_digits)%nat ->
  PyStr.int (PyStr.of_int n) = Some n.
Proof.
  intro Hcap. unfold PyStr.int. rewrite digit_count_of_int.
  apply Nat.ltb_ge in Hcap. rewrite Hcap.
  rewrite int_strip_plain by apply of_int_plain.
  unfold PyStr.of_int, NilZero.string_of_int, NilZero.string_of_uint.
  destruct n as [|p|p]; [reflexivity| |]; cbn [Z.to_int].
  - pose proof (DecimalPos.Unsigned.to_uint_nonnil p) as Hn.
    pose proof (DecimalPos.Unsigned.of_to p) as Hp.
    pose proof (@digits_of_uint false _ Hn) as Hd. rewrite Hp in Hd.
    destruct (Pos.to_uint p); [congruence| | | | | | | | | |]; exact Hd.
  - pose proof (DecimalPos.Unsigned.to_uint_nonnil p) as Hn.
    pose proof (DecimalPos.Unsigned.of_to p) as Hp.
    pose proof (@digits_of_uint false _ Hn) as Hd. rewrite Hp in Hd.
    destruct (Pos.to_uint p); [congruence| | | | | | | | | |];
      cbv beta iota; rewrite Hd; reflexivity.
Qed.

Lemma int_of_int_beyond n :
  (PyStr.max_str_digits < decimal_digits n)%nat ->
  PyStr.int (PyStr.of_int n) = None.
Proof.
  intro Hcap. unfold PyStr.int. rewrite digit_count_of_int.
  apply Nat.ltb_lt in Hcap. now rewrite Hcap.
Qed.

Lemma stripped_lines_of_pair width height :
  stripped_lines
    (PyStr.of_int width ++ Scenario.nl ++ PyStr.of_int height ++ Scenario.nl)
  = [PyStr.of_int width; PyStr.of_int height].
Proof.
  unfold stripped_lines, PyStr.splitlines, Scenario.nl.
  rewrite splitlines_from_plain by apply of_int_plain.
  cbn [append PyStr.splitlines_from].
  change (PyStr.code (ascii_of_nat 10) =? 13)%nat with false.
  change (PyStr.islinebreak (ascii_of_nat 10)) with true. cbv iota.
  rewrite splitlines_from_plain by apply of_int_plain.
  cbn [append PyStr.splitlines_from].
  change (PyStr.code (ascii_of_nat 10) =? 13)%nat with false.
  change (PyStr.islinebreak (ascii_of_nat 10)) with true. cbv iota.
  cbn [filter].
  rewrite !strip_plain by apply of_int_plain.
  rewrite !of_int_truthy. cbn [map].
  now rewrite !strip_plain by apply of_int_plain.
Qed.

(** X3.  The reading of the probe's output gives back any pair of integers
    printed one per line in decimal, zero and negative ones included, as
    long as each has at most 4300 digits: the probe checks that two
    integers are there, not that they are positive.  Beyond 4300 digits
    the reading raises [ValueError]. *)
Theorem read_dimensions_round_trip video_path width height :
  let printed :=
    PyStr.of_int width ++ Scenario.nl ++ PyStr.of_int height ++ Scenario.nl in
  ((decimal_digits width <= 4300)%nat ->
   (decimal_digits height <= 4300)%nat ->
   read_dimensions video_path printed = Ok (width, height))
  /\ ((4300 < decimal_digits width)%nat
      \/ (4300 < decimal_digits height)%nat ->
      exists msg, read_dimensions video_path printed = Raise (ValueError msg)).
Proof.
  cbv zeta. unfold read_dimensions, int_. rewrite stripped_lines_of_pair.
  cbn [length Nat.ltb Nat.leb nth]. split.
  - intros Hw Hh. now rewrite !int_of_int.
  - intros [Hw|Hh].
    + rewrite int_of_int_beyond by exact Hw. eauto.
    + destruct (PyStr.int (PyStr.of_int width)); [|eauto].
      rewrite int_of_int_beyond by exact Hh. eauto.
Qed.

(* ================================================================= *)
(** ** How a merge ends *)

(** The trace of the goal, cut before its last two effects. *)
Ltac cut_last_two :=
  match goal with
  | |- exists before, exists _, ?tr = _ => exists (firstn (length tr - 2) tr)
  | |- exists before, exists _, exists _, ?tr = _ /\ _ =>
      exists (firstn (length tr - 2) tr)
  | |- exists before, exists _, exists _, exists _, ?tr = _ /\ _ =>
      exists (firstn (length tr - 2) tr)
  end.

(** The reading of the dimensions raises nothing but what
    [read_dimensions_raises] lists. *)
Ltac no_such_reading :=
  match goal with
  | E : read_dimensions _ _ = Raise _ |- _ =>
      apply read_dimensions_raises in E;
      destruct E as [[_ E]|(_ & ? & E & _)]; discriminate E
  end.

(** No library error is a [CalledProcessError]. *)
Ltac not_from_library :=
  match goal with
  | E : to_exn ?e = CalledProcessError _ |- _ => destruct e; discriminate E
  end.

(** X4.  The exit status of a child is reported raw only for the three
    [ffmpeg] commands that write: when a merge raises
    [CalledProcessError], its arguments are those of the stream copy, the
    rescale or the concatenation, that command is the last one started,
    and it is followed by nothing but the removal of the temporary
    directory. *)
Theorem called_process_error_names_the_step env l r o args tr :
  merge_local_with_remote env l r o [] = (Raise (CalledProcessError args), tr) ->
  (is_fetch args || is_scale args || is_concat args) = true
  /\ exists before d, tr = (before ++ [EvRun args Failed; EvRmtree d])%list.
Proof.
  intro H. every_run H.
  all: try no_such_reading.
  all: try not_from_library.
  all: split; [reflexivity|].
  all: cut_last_two; eexists; reflexivity.
Qed.

(** X7.  A merge stops at the first failure: once a child process, the
    copy or the downloader has failed, the call has no further effect but
    the removal of its temporary directory; and a call that returns a path
    has met no failure. *)
Theorem merge_stops_at_first_failure env l r o res tr :
  merge_local_with_remote env l r o [] = (res, tr) ->
  (after_failure tr = [] \/ exists d, after_failure tr = [EvRmtree d])
  /\ (forall p, res = Ok p -> existsb failed tr = false).
Proof.
  intro H. every_run H.
  all: split; [|intros p Hp; try discriminate Hp; reflexivity].
  all: cbn; eauto.
Qed.

(** X8.  The child processes of a merge are started in one fixed order:
    guard, stream copy (if the remote clip is fetched that way), the two
    dimension probes, rescale (if any), the two audio probes,
    concatenation.  The commands of every call are a beginning of that
    list, and those of a call that returns are the whole list. *)
Theorem merge_follows_the_pipeline env l r o res tr :
  merge_local_with_remote env l r o [] = (res, tr) ->
  exists fetch rescale,
    firstn (length (stages tr)) (pipeline fetch rescale) = stages tr
    /\ (forall p, res = Ok p -> stages tr = pipeline fetch rescale).
Proof.
  intro H. every_run H.
  all: first
         [ exists true, true; split;
           [reflexivity|intros p Hp; first [discriminate Hp|reflexivity]]
         | exists true, false; split;
           [reflexivity|intros p Hp; first [discriminate Hp|reflexivity]]
         | exists false, true; split;
           [reflexivity|intros p Hp; first [discriminate Hp|reflexivity]]
         | exists false, false; split;
           [reflexivity|intros p Hp; first [discriminate Hp|reflexivity]] ].
Qed.

(* ================================================================= *)
(** ** What a merge writes and what it asks of the downloader *)


Lemma dirname_from_join d :
  dirname_from (path_join d "remote.mp4") = Some d.
Proof.
  unfold path_join. change ("/" ++ "remote.mp4") with "/remote.mp4".
  induction d as [|c d IH]; [reflexivity|].
  cbn [append dirname_from]. now rewrite IH.
Qed.

(** [(Path(d) / "remote.mp4").parent] is [d]. *)
Lemma path_parent_join d :
  d <> "" -> path_parent (path_join d "remote.mp4") = d.
Proof.
  intro Hd. unfold path_parent. rewrite dirname_from_join.
  destruct d; [congruence|reflexivity].
Qed.





Lemma merge_in_tmpdir_asks env lp url op d :
  emits (fun e =>
           match e with
           | EvYtdlp u opts _ =>
               u = url /\ _is_streaming_url url = true
               /\ outtmpl opts =
                    path_join (path_parent (path_join d "remote.mp4"))
                              "remote.%(ext)s"
               /\ format opts = "bestvideo+bestaudio/best"
               /\ noplaylist opts = true
           | _ => True
           end)
        (merge_in_tmpdir env lp url op d).
Proof.
  unfold merge_in_tmpdir, _prepare_remote_clip, _download_with_ytdlp,
    _download_remote_clip, _probe_video_dimensions, _has_audio_stream,
    _scale_video_to_target, _concat_with_reencoding.
  prove_emits ltac:(first [exact I | repeat split; reflexivity]).
Qed.

(** A call that stops early has not called the downloader. *)
Lemma stops_early_no_download env o tr url opts outcome :
  stops_early env o tr -> ~ In (EvYtdlp url opts outcome) tr.
Proof.
  intros [->|[(oc & ->)|[(out & e & ->)|(out & ->)]]] Hin; cbn in Hin;
    repeat match goal with
           | H : _ \/ _ |- _ => destruct H
           | H : False |- _ => destruct H
           end; discriminate.
Qed.

(** X10.  Whenever a merge calls the downloader, it hands it the remote
    reference unchanged, the reference is one the classifier calls
    streaming, the output template is [remote.%(ext)s] inside the
    temporary directory of the call, the format is
    [bestvideo+bestaudio/best] and playlists are off. *)
Theorem merge_downloads_into_tmpdir env l r o res tr url opts outcome :
  merge_local_with_remote env l r o [] = (res, tr) ->
  In (EvYtdlp url opts outcome) tr ->
  url = r
  /\ _is_streaming_url r = true
  /\ format opts = "bestvideo+bestaudio/best"
  /\ noplaylist opts = true
  /\ exists d,
       In (EvMkdtemp d) tr
       /\ (d <> "" -> outtmpl opts = path_join d "remote.%(ext)s").
Proof.
  intros H Hin.
  destruct (merge_run _ _ _ _ H)
    as [[_ Hs]|(out & rb & new & Hbody & _ & _ & Htr)];
    [now apply stops_early_no_download with (1 := Hs) in Hin|].
  cbv zeta in Htr, Hbody.
  set (d0 := mkdtemp env _) in *.
  destruct (@merge_in_tmpdir_asks env _ _ _ _ _ _ _ Hbody)
    as (new' & Hnew' & Hasks).
  change (([EvRun version_args (Completed out);
            EvMkdir (path_parent (resolve env (expanduser env o)))]
             ++ EvMkdtemp d0 :: new)%list)
    with (([EvRun version_args (Completed out);
            EvMkdir (path_parent (resolve env (expanduser env o)))]
             ++ [EvMkdtemp d0]) ++ new)%list in Hnew'.
  apply app_inv_head in Hnew'. subst new'.
  rewrite Htr in Hin |- *. cbn [app] in Hin |- *.
  destruct Hin as [Hin|[Hin|[Hin|Hin]]]; try discriminate.
  apply in_app_or in Hin. destruct Hin as [Hin|[Hin|[]]]; [|discriminate].
  rewrite Forall_forall in Hasks. specialize (Hasks _ Hin).
  destruct Hasks as (-> & Hs & Ht & Hf & Hn).
  repeat split; auto. exists d0. split; [do 2 right; left; reflexivity|].
  intro Hd. now rewrite Ht, path_parent_join.
Qed.
(* ================================================================= *)
(** ** The downloader and the classifier *)

(** X11.  [_download_with_ytdlp] returns normally exactly when the
    [yt_dlp] module is there, the directory can be made, the download
    names a file, the lookup of that file answers that it is there, and
    the rename succeeds; its effects are then the [mkdir], the download
    and the rename of the named file onto the destination.  It renames
    nothing in any other case.  When the named file is not there it raises
    the [RuntimeError] that names the reference; when the download raises
    it raises the error of the download, [DownloadError] as a rule;
    without the module it raises before any effect. *)
Theorem download_with_ytdlp_outcomes env url destination tr res tr' :
  _download_with_ytdlp env url destination tr = (res, tr') ->
  let parent := path_parent destination in
  let opts :=
    {| outtmpl := path_join parent "remote.%(ext)s";
       format := "bestvideo+bestaudio/best";
       noplaylist := true;
       quiet := true;
       no_warnings := true |} in
  let t1 := (tr ++ [EvMkdir parent])%list in
  let t2 := (t1 ++ [EvYtdlp url opts (ytdlp_extract env t1 url opts)])%list in
  (ytdlp_importable env = false ->
   res = Raise (RuntimeError
                  "yt-dlp is required for streaming URLs like X/YouTube")
   /\ tr' = tr)
  /\ (res = Ok tt
      <-> ytdlp_importable env = true
          /\ fault env tr (Mkdir parent) = None
          /\ exists name,
               ytdlp_extract env t1 url opts = YtPrepared name
               /\ fault env t2 (Exists name) = None
               /\ path_exists env t2 name = true
               /\ fault env t2 (Replace name destination) = None)
  /\ (forall source target,
         In (EvReplace source target) (skipn (length tr) tr') ->
         res = Ok tt
         /\ target = destination
         /\ ytdlp_extract env t1 url opts = YtPrepared source
         /\ tr' = (t2 ++ [EvReplace source destination])%list)
  /\ (forall name,
         ytdlp_importable env = true ->
         fault env tr (Mkdir parent) = None ->
         ytdlp_extract env t1 url opts = YtPrepared name ->
         fault env t2 (Exists name) = None ->
         path_exists env t2 name = false ->
         res = Raise (RuntimeError ("yt-dlp failed to download " ++ url))
         /\ tr' = t2)
  /\ (forall msg,
         ytdlp_importable env = true ->
         fault env tr (Mkdir parent) = None ->
         ytdlp_extract env t1 url opts = YtRaised msg ->
         res = Raise (DownloadError msg) /\ tr' = t2)
  /\ (forall e,
         ytdlp_importable env = true ->
         fault env tr (Mkdir parent) = None ->
         ytdlp_extract env t1 url opts = YtBroke e ->
         res = Raise (to_exn e) /\ tr' = t2).
Proof.
  rewrite download_with_ytdlp_cases. cbv zeta.
  set (parent := path_parent destination).
  set (opts := {| outtmpl := _ |}).
  set (t1 := (tr ++ [EvMkdir parent])%list).
  destruct (ytdlp_importable env) eqn:Hi; cbn [negb];
    [destruct (fault env tr (Mkdir parent)) as [e|] eqn:Fm;
     [|destruct (ytdlp_extract env t1 url opts) as [msg|name|e] eqn:Hy;
       [|destruct (fault env _ (Exists name)) as [e|] eqn:Fe;
         [|destruct (path_exists env _ name) eqn:Hx;
           [destruct (fault env _ (Replace name destination)) as [e|] eqn:Fr
           |]]|]]|].
  all: intro H; inversion H; subst res tr'; clear H.
  all: subst t1; rewrite <- ?app_assoc in *; cbn [app] in *.
  all: rewrite ?skipn_app, ?skipn_all, ?Nat.sub_diag; cbn [app skipn].
  all: repeat split; intros.
  all: repeat match goal with
              | H : _ /\ _ |- _ => destruct H
              | H : exists _, _ |- _ => destruct H
              | H : In _ (_ :: _) |- _ => destruct H
              | H : In _ [] |- _ => destruct H
              | H : YtPrepared _ = YtPrepared _ |- _ =>
                  inversion H; clear H; subst
              | H : EvReplace _ _ = EvReplace _ _ |- _ =>
                  inversion H; clear H; subst
              end.
  all: try discriminate; try congruence; eauto 8.
  now rewrite <- app_assoc.
Qed.

Lemma lower_char_idempotent c :
  PyStr.lower_char (PyStr.lower_char c) = PyStr.lower_char c.
Proof. destruct c as [[] [] [] [] [] [] [] []]; reflexivity. Qed.

Lemma lower_idempotent s : PyStr.lower (PyStr.lower s) = PyStr.lower s.
Proof.
  induction s as [|c s IH]; [reflexivity|]. cbn.
  now rewrite lower_char_idempotent, IH.
Qed.

(** X12.  The classifier ignores letter case, and a streaming reference
    stays one wherever it is embedded: text added before or after it,
    such as a redirect prefix or query parameters, cannot turn the
    downloader off. *)
Theorem streaming_survives_case_and_context url :
  _is_streaming_url (PyStr.lower url) = _is_streaming_url url
  /\ (forall before after,
         _is_streaming_url url = true ->
         _is_streaming_url (before ++ url ++ after) = true).
Proof.
  split.
  - unfold _is_streaming_url. now rewrite lower_idempotent.
  - intros before after H. apply is_streaming_url_spec in H.
    destruct H as (domain & b & a & Hin & Hl).
    apply is_streaming_url_spec.
    exists domain, (PyStr.lower before ++ b), (a ++ PyStr.lower after).
    split; [exact Hin|].
    rewrite !lower_app, Hl. now rewrite !append_assoc3.
Qed.

(* ================================================================= *)
(** ** The caller's path options *)

Lemma if_set_idempotent x : NewsCast.if_set (NewsCast.if_set x) = NewsCast.if_set x.
Proof.
  destruct x as [s|]; [|reflexivity]. cbn.
  destruct (PyStr.truthy s) eqn:E; cbn; now rewrite ?E.
Qed.

(** X13.  [_resolve_paths] raises [ValueError] exactly when no reference
    image is set, neither on the command line nor in the configuration,
    an empty string counting as not set; in every other case it returns,
    and the audio output and the result directory it returns are always
    there, whatever is missing. *)
Theorem resolve_paths_needs_a_reference_image Path config args :
  (NewsCast._resolve_paths Path config args =
     Raise (ValueError
              "Reference image must be provided via config or --reference-image.")
   <-> NewsCast.if_set (NewsCast.reference_image args) = None
       /\ NewsCast.SAD_TALKER_REFERENCE_IMAGE config = "")
  /\ (forall e, NewsCast._resolve_paths Path config args = Raise e ->
        e = ValueError
              "Reference image must be provided via config or --reference-image.")
  /\ (forall image,
         NewsCast.if_set (NewsCast.reference_image args) = Some image ->
         exists voice audio results,
           NewsCast._resolve_paths Path config args =
             Ok (voice, audio, Path image, results)).
Proof.
  unfold NewsCast._resolve_paths.
  destruct (NewsCast.if_set (NewsCast.reference_image args)) as [image|].
  - split; [|split].
    + split; [discriminate|]. intros [H _]; discriminate.
    + discriminate.
    + intros i H; inversion H; subst. eauto.
  - destruct (NewsCast.SAD_TALKER_REFERENCE_IMAGE config) as [|c s];
      cbn [PyStr.truthy].
    + split; [|split]; [tauto| |discriminate].
      intros e H; now inversion H.
    + split; [|split]; try discriminate.
      split; [discriminate|]. intros [_ H]; discriminate.
Qed.

(** X14.  For [_resolve_paths] an option given as the empty string is an
    option not given: taking the empty path options away from the command
    line changes neither the result nor the error. *)
Theorem resolve_paths_empty_is_absent Path config args :
  NewsCast._resolve_paths Path config (NewsCast.without_empty_options args)
  = NewsCast._resolve_paths Path config args.
Proof.
  unfold NewsCast._resolve_paths, NewsCast.without_empty_options.
  cbn [NewsCast.voice_file NewsCast.audio_output NewsCast.reference_image
       NewsCast.result_dir].
  now rewrite !if_set_idempotent.
Qed.

Lemma last_concat_args lp rp op ia : last (concat_args lp rp op ia) "" = op.
Proof. destruct ia; reflexivity. Qed.

(** X15.  The path a merge returns is the path its concatenation wrote:
    a call returns only after the concatenation command whose last
    argument is the returned path has completed, and that command is the
    last effect before the removal of the temporary directory. *)
Theorem merge_returns_what_concat_wrote env l r o p tr :
  merge_local_with_remote env l r o [] = (Ok p, tr) ->
  exists before local remote include_audio stdout d,
    tr = (before
            ++ [EvRun (concat_args local remote p include_audio)
                      (Completed stdout);
                EvRmtree d])%list
    /\ last (concat_args local remote p include_audio) "" = p.
Proof.
  intro H. every_run H.
  all: match goal with
       | |- context [?tr = (_ ++ _)%list] =>
           exists (firstn (length tr - 2) tr)
       end.
  all: do 5 eexists; split; [|apply last_concat_args].
  all: rewrite concat_args_cons; reflexivity.
Qed.


(* ================================================================= *)
(** ** These theorems at work in concrete worlds *)

Lemma read_dimensions_round_trip_witness :
  (decimal_digits 1280 <= 4300)%nat
  /\ (decimal_digits (-720) <= 4300)%nat
  /\ read_dimensions Scenario.local_clip
       (PyStr.of_int 1280 ++ Scenario.nl ++ PyStr.of_int (-720) ++ Scenario.nl)
     = Ok (1280, -720)%Z.
Proof.
  assert (Hw : (decimal_digits 1280 <= 4300)%nat)
    by (apply Nat.leb_le; reflexivity).
  assert (Hh : (decimal_digits (-720) <= 4300)%nat)
    by (apply Nat.leb_le; reflexivity).
  split; [exact Hw|split; [exact Hh|]].
  exact (proj1 (@read_dimensions_round_trip Scenario.local_clip
                  1280%Z (-720)%Z) Hw Hh).
Defined.

Lemma called_process_error_names_the_step_witness :
  fst Cases.dead_link_run =
    Raise (CalledProcessError
             (fetch_args "https://example.org/a.mp4" Scenario.working_remote))
  /\ exists before d,
       snd Cases.dead_link_run =
         (before
            ++ [EvRun (fetch_args "https://example.org/a.mp4"
                                  Scenario.working_remote) Failed;
                EvRmtree d])%list.
Proof.
  split; [reflexivity|].
  exact (proj2 (@called_process_error_names_the_step Scenario.dead_link
                  "intro.mp4" "https://example.org/a.mp4" "out.mp4"
                  (fetch_args "https://example.org/a.mp4"
                              Scenario.working_remote)
                  (snd Cases.dead_link_run) eq_refl)).
Defined.

Lemma merge_stops_at_first_failure_witness :
  (exists d, after_failure (snd Cases.dead_link_run) = [EvRmtree d])
  /\ existsb failed (snd Scenario.youtube_run) = false.
Proof.
  split.
  - destruct (proj1 (@merge_stops_at_first_failure Scenario.dead_link
                       "intro.mp4" "https://example.org/a.mp4" "out.mp4"
                       (fst Cases.dead_link_run) (snd Cases.dead_link_run)
                       eq_refl)) as [H|H]; [discriminate H|exact H].
  - exact (proj2 (@merge_stops_at_first_failure Scenario.youtube
                    "intro.mp4" "https://youtu.be/XXXX" "~/out/merged.mp4"
                    (fst Scenario.youtube_run) (snd Scenario.youtube_run)
                    eq_refl) "/home/ana/out/merged.mp4" eq_refl).
Defined.

Lemma merge_follows_the_pipeline_witness :
  stages (snd Scenario.youtube_run) = pipeline false true
  /\ stages (snd Scenario.same_size_run) = pipeline false false.
Proof.
  split.
  - destruct (@merge_follows_the_pipeline Scenario.youtube
                "intro.mp4" "https://youtu.be/XXXX" "~/out/merged.mp4"
                (fst Scenario.youtube_run) (snd Scenario.youtube_run) eq_refl)
      as (fetch & rescale & _ & H).
    specialize (H _ eq_refl). rewrite H.
    destruct fetch, rescale; try discriminate H; reflexivity.
  - destruct (@merge_follows_the_pipeline Scenario.same_size
                "intro.mp4" "/work/outro.mp4" "out.mp4"
                (fst Scenario.same_size_run) (snd Scenario.same_size_run)
                eq_refl)
      as (fetch & rescale & _ & H).
    specialize (H _ eq_refl). rewrite H.
    destruct fetch, rescale; try discriminate H; reflexivity.
Defined.


Lemma merge_downloads_into_tmpdir_witness :
  exists opts,
    In (EvYtdlp "https://youtu.be/XXXX" opts
                (YtPrepared "/tmp/tmpk3v9x/remote.webm"))
       (snd Scenario.youtube_run)
    /\ format opts = "bestvideo+bestaudio/best"
    /\ noplaylist opts = true.
Proof.
  eexists. split; [do 4 right; left; reflexivity|].
  destruct (@merge_downloads_into_tmpdir Scenario.youtube
              "intro.mp4" "https://youtu.be/XXXX" "~/out/merged.mp4"
              (fst Scenario.youtube_run) (snd Scenario.youtube_run)
              "https://youtu.be/XXXX" _ (YtPrepared "/tmp/tmpk3v9x/remote.webm")
              eq_refl (or_intror (or_intror (or_intror (or_intror
                         (or_introl eq_refl))))))
    as (_ & _ & Hf & Hn & _).
  split; assumption.
Defined.

Lemma download_with_ytdlp_outcomes_witness :
  fst (_download_with_ytdlp Scenario.youtube "https://youtu.be/XXXX"
         Scenario.working_remote (Scenario.at_prepare "/work")) = Ok tt
  /\ fst (_download_with_ytdlp Scenario.lost_download "https://youtu.be/XXXX"
            Scenario.working_remote (Scenario.at_prepare "/work"))
     = Raise (RuntimeError "yt-dlp failed to download https://youtu.be/XXXX").
Proof.
  split.
  - destruct (@download_with_ytdlp_outcomes Scenario.youtube
                "https://youtu.be/XXXX" Scenario.working_remote
                (Scenario.at_prepare "/work") _ _ eq_refl)
      as (_ & Hok & _).
    apply Hok. split; [reflexivity|split; [reflexivity|]].
    exists "/tmp/tmpk3v9x/remote.webm". repeat split; reflexivity.
  - destruct (@download_with_ytdlp_outcomes Scenario.lost_download
                "https://youtu.be/XXXX" Scenario.working_remote
                (Scenario.at_prepare "/work") _ _ eq_refl)
      as (_ & _ & _ & Hgone & _).
    exact (proj1 (Hgone "/tmp/tmpk3v9x/remote.webm"
                    eq_refl eq_refl eq_refl eq_refl eq_refl)).
Defined.

Lemma streaming_survives_case_and_context_witness :
  _is_streaming_url "https://youtu.be/XXXX" = true
  /\ _is_streaming_url
       ("https://example.org/go?to=" ++ "https://youtu.be/XXXX" ++ "&from=mail")
     = true.
Proof.
  split; [reflexivity|].
  exact (proj2 (streaming_survives_case_and_context "https://youtu.be/XXXX")
           "https://example.org/go?to=" "&from=mail" eq_refl).
Defined.

Lemma resolve_paths_needs_a_reference_image_witness :
  NewsCast._resolve_paths (fun s => s) Cases.no_image
    (Cases.command_line (Some "")) =
    Raise (ValueError
             "Reference image must be provided via config or --reference-image.")
  /\ exists voice audio results,
       NewsCast._resolve_paths (fun s => s) Cases.no_image
         (Cases.command_line (Some "face.png")) =
         Ok (voice, audio, "face.png", results).
Proof.
  split.
  - apply (proj1 (@resolve_paths_needs_a_reference_image (fun s => s)
                    Cases.no_image (Cases.command_line (Some "")))).
    split; reflexivity.
  - exact (proj2 (proj2 (@resolve_paths_needs_a_reference_image (fun s => s)
                           Cases.no_image
                           (Cases.command_line (Some "face.png"))))
             "face.png" eq_refl).
Defined.

Lemma merge_returns_what_concat_wrote_witness :
  exists before local remote include_audio stdout d,
    snd Scenario.youtube_run =
      (before
         ++ [EvRun (concat_args local remote "/home/ana/out/merged.mp4"
                                include_audio)
                   (Completed stdout);
             EvRmtree d])%list
    /\ last (concat_args local remote "/home/ana/out/merged.mp4"
                         include_audio) ""
       = "/home/ana/out/merged.mp4".
Proof.
  exact (@merge_returns_what_concat_wrote Scenario.youtube
           "intro.mp4" "https://youtu.be/XXXX" "~/out/merged.mp4"
           "/home/ana/out/merged.mp4" (snd Scenario.youtube_run) eq_refl).
Defined.
